(** * merge_available_points: joining Available.csv with AllValues.csv

    A shallow embedding of [merge_available_points.py] and the properties
    of its loader, its column inference and its join.

    Python values are modelled as follows.
    - [str] is [string]; a character is one of the 256 values of [ascii]
      (the code points U+0000..U+00FF, which is what the latin-1 codec
      produces byte for byte).
    - a cell of a row is [option string]: [None] is Python's [None], which
      [csv.DictReader] stores for the cells a short line lacks.
    - a row of a loaded table, only read through [row.get], is a
      [gmap string (option string)]; the dictionary [csv.DictReader] builds,
      whose order decides which cell wins when two headers are equal after
      trimming, is an insertion-ordered association list. *)

From Stdlib Require Import Strings.Ascii Strings.String Strings.Byte.
From stdpp Require Import gmap strings list pretty.

Local Open Scope string_scope.

(** ** Python's [str] methods used by the program *)

Module Text.

(** [str.isspace] on U+0000..U+00FF: TAB..CR, FS..US, SPACE, NEL, NBSP. *)
Definition is_space (c : ascii) : bool :=
  let n := nat_of_ascii c in
  (((9 <=? n) && (n <=? 13)) || ((28 <=? n) && (n <=? 32))
   || (n =? 133) || (n =? 160))%nat.

Fixpoint lstrip (s : string) : string :=
  match s with
  | String c s' => if is_space c then lstrip s' else s
  | EmptyString => EmptyString
  end.

Fixpoint rstrip (s : string) : string :=
  match s with
  | String c s' =>
      match rstrip s' with
      | EmptyString => if is_space c then EmptyString else String c EmptyString
      | r => String c r
      end
  | EmptyString => EmptyString
  end.

(** [s.strip()] *)
Definition strip (s : string) : string := rstrip (lstrip s).

(** [str.lower] on one character of U+0000..U+00FF: A..Z and the
    upper-case letters of the Latin-1 supplement (U+00D7 is the
    multiplication sign) move up by 32. *)
Definition lower_char (c : ascii) : ascii :=
  let n := nat_of_ascii c in
  if (((65 <=? n) && (n <=? 90))
      || ((192 <=? n) && (n <=? 222) && negb (n =? 215)))%nat
  then ascii_of_nat (n + 32) else c.

Fixpoint lower (s : string) : string :=
  match s with
  | String c s' => String (lower_char c) (lower s')
  | EmptyString => EmptyString
  end.

(** [sub in s] *)
Fixpoint contains (sub s : string) : bool :=
  String.prefix sub s ||
  match s with
  | String _ s' => contains sub s'
  | EmptyString => false
  end.

(** [sep.join(items)] on strings *)
Fixpoint join (sep : string) (items : list string) : string :=
  match items with
  | [] => ""
  | [x] => x
  | x :: rest => x ++ sep ++ join sep rest
  end.

End Text.

(** ** Exceptions and results *)

Inductive exn : Type :=
| ValueError (msg : string)
| UnicodeDecodeError (reason : string)
| CsvError
| OSError
| TypeError.

Inductive result (A : Type) : Type :=
| Ok (a : A)
| Err (e : exn).
Arguments Ok {A} a.
Arguments Err {A} e.

Definition is_ok {A} (r : result A) : bool :=
  match r with Ok _ => true | Err _ => false end.

(** Python's truth value of [x] in [if x:] for an optional string. *)
Definition truthy (o : option string) : bool :=
  match o with
  | Some s => negb (String.eqb s "")
  | None => false
  end.

Definition ALL_VALUES_PATH : string := "AllValues.csv".
Definition AVAILABLE_PATH : string := "Available.csv".
Definition OUTPUT_PATH : string := "AvailableWithPoints.csv".

(** ** Column inference *)

Definition find_name_column (fieldnames : list string) (file_label : string)
  : result string :=
  let exact_match := List.find (fun name => String.eqb name "Name") fieldnames in
  if truthy exact_match then Ok (default "" exact_match) else
  let name_like :=
    List.find (fun name => Text.contains "name" (Text.lower name)) fieldnames in
  if truthy name_like then Ok (default "" name_like) else
  Err (ValueError ("Could not find a name column in " ++ file_label ++ ".")).

(** What the program takes from the Python runtime and its [csv] module.
    - [float_parses s]: [float(s)] returns instead of raising [ValueError];
    - [csv_records text]: the records [csv.reader] yields over a decoded
      text, in file order, a blank line giving the empty record [[]], and
      whether the reader then stops by raising [csv.Error];
    - [read_through enc bytes]: what reading the file through a codec that
      can reject bytes gives (decoding is incremental, so records may have
      been yielded before a [UnicodeDecodeError] is raised). *)

Inductive encoding : Type := utf_8_sig | cp1252 | latin_1.

Inductive stop : Type :=
| Eof
| Raises (e : exn).

Record reading : Type := Reading {
  records : list (list string);
  stop_with : stop
}.

Class Runtime : Type := {
  float_parses : string -> bool;
  csv_records : string -> list (list string) * bool;
  read_through : encoding -> list byte -> reading
}.

(** A loaded table: the header list and the rows in file order. *)
Definition cell : Type := option string.
Definition table : Type := (list string * list (gmap string cell))%type.

(** [row.get(column, "")] *)
Definition row_get (row : gmap string cell) (column : string) : cell :=
  default (Some "") (row !! column).

Definition is_numeric `{Runtime} (value : cell) : bool :=
  match value with
  | None => false
  | Some value =>
      let value := Text.strip value in
      if String.eqb value "" then false else float_parses value
  end.

(** [value is not None and value.strip() != ""] *)
Definition non_blank (value : cell) : bool :=
  match value with
  | None => false
  | Some value => negb (String.eqb (Text.strip value) "")
  end.

Definition numeric_column `{Runtime} (rows : list (gmap string cell))
    (column_name : string) : bool :=
  let values := List.map (fun row => row_get row column_name) rows in
  let non_blank_values := List.filter non_blank values in
  negb (Nat.eqb (List.length non_blank_values) 0)
  && List.forallb is_numeric non_blank_values.

Definition find_points_column `{Runtime} (fieldnames : list string)
    (rows : list (gmap string cell)) : result string :=
  let exact_match := List.find (fun name => String.eqb name "Points") fieldnames in
  if truthy exact_match then Ok (default "" exact_match) else
  match List.find (numeric_column rows) fieldnames with
  | Some column_name => Ok column_name
  | None => Err (ValueError "Could not find a points column in AllValues.csv.")
  end.

(** ** The loader *)

(** [d[k] = v] on an insertion-ordered dictionary: a key already present
    keeps its position. *)
Fixpoint dict_set {K V} `{EqDecision K} (k : K) (v : V) (d : list (K * V))
  : list (K * V) :=
  match d with
  | [] => [(k, v)]
  | (k', v') :: d' =>
      if decide (k = k') then (k, v) :: d' else (k', v') :: dict_set k v d'
  end.

(** [list(dict.fromkeys(names))]: the keys in first-seen order. *)
Definition fromkeys {K} `{EqDecision K} (names : list K) : list K :=
  List.map fst (List.fold_left (fun d k => dict_set k tt d) names []).

(** One step of [csv.DictReader.__next__] on a non-blank record: the
    dictionary [dict(zip(fieldnames, row))], completed with [None]
    ([restval]) under the headers a short record lacks, and the surplus
    cells of a long record, which the reader stores under the key [None]
    ([restkey]). *)
Definition dict_reader_row (fieldnames row : list string)
  : list (string * cell) * option (list string) :=
  let d := List.fold_left (fun d kv => dict_set (fst kv) (Some (snd kv)) d)
             (List.combine fieldnames row) [] in
  let lf := List.length fieldnames in
  let lr := List.length row in
  if (lf <? lr)%nat then (d, Some (List.skipn lf row))
  else (List.fold_left (fun d key => dict_set key None d)
          (List.skipn lr fieldnames) d, None).

(** The body of [for row in reader]: the entry under the key [None] is
    skipped, keys are trimmed, and a value is trimmed when it is a [str]. *)
Definition clean_row (row : list (string * cell) * option (list string))
  : gmap string cell :=
  List.fold_left
    (fun cleaned kv => <[Text.strip (fst kv) := Text.strip <$> snd kv]> cleaned)
    (fst row) ∅.

Definition is_blank_record (row : list string) : bool :=
  match row with [] => true | _ => false end.

Definition no_header_row (path : string) : exn :=
  ValueError (path ++ " has no header row.").

(** The body of the [with] block of [load_csv] over what the reader gives.
    [reader.fieldnames] is the first record ([None] at end of file); the
    rows are read after it, blank records skipped; an exception raised by
    the reader while the header or a row is fetched leaves the block. *)
Definition read_table (path : string) (rd : reading) : result table :=
  match records rd with
  | [] =>
      match stop_with rd with
      | Eof => Err (no_header_row path)
      | Raises e => Err e
      end
  | reader_fieldnames :: rest =>
      if is_blank_record reader_fieldnames then Err (no_header_row path) else
      let fieldnames := List.map Text.strip reader_fieldnames in
      let rows :=
        List.map (fun row => clean_row (dict_reader_row reader_fieldnames row))
          (List.filter (fun row => negb (is_blank_record row)) rest) in
      match stop_with rd with
      | Eof => Ok (fieldnames, rows)
      | Raises e => Err e
      end
  end.

(** The latin-1 codec maps every byte to the character of the same code
    point. *)
Definition decode_latin1 (content : list byte) : string :=
  string_of_list_byte content.

Definition open_reader `{Runtime} (enc : encoding) (content : list byte)
  : reading :=
  match enc with
  | latin_1 =>
      let '(rs, bad) := csv_records (decode_latin1 content) in
      Reading rs (if bad then Raises CsvError else Eof)
  | _ => read_through enc content
  end.

Definition unable_to_decode (path : string) : exn :=
  UnicodeDecodeError ("Unable to decode " ++ path ++ " using attempted encodings").

(** The [for encoding in ...] loop: only [UnicodeDecodeError] moves on to
    the next encoding. *)
Fixpoint load_with `{Runtime} (path : string) (content : list byte)
    (encodings : list encoding) : result table :=
  match encodings with
  | [] => Err (unable_to_decode path)
  | enc :: encodings' =>
      match read_table path (open_reader enc content) with
      | Err (UnicodeDecodeError _) => load_with path content encodings'
      | r => r
      end
  end.

(** [path.open] raises [OSError] on a file that cannot be opened. *)
Definition load_csv `{Runtime} (files : string -> option (list byte))
    (path : string) : result table :=
  match files path with
  | None => Err OSError
  | Some content => load_with path content [utf_8_sig; cp1252; latin_1]
  end.

(** ** The join *)

(** A joined row, [{"Name": name, "Points": points}]. *)
Record joined_row : Type := JoinedRow {
  Name : cell;
  Points : cell
}.

(** One iteration of [for row in all_rows] on [(points_by_name,
    duplicate_names)]. *)
Definition index_step (all_name_column points_column : string)
    (st : gmap cell cell * list cell) (row : gmap string cell)
  : gmap cell cell * list cell :=
  let '(points_by_name, duplicate_names) := st in
  let name := row_get row all_name_column in
  match points_by_name !! name with
  | Some _ => (points_by_name, (duplicate_names ++ [name])%list)
  | None => (<[name := row_get row points_column]> points_by_name, duplicate_names)
  end.

Definition build_index (all_name_column points_column : string)
    (all_rows : list (gmap string cell)) : gmap cell cell * list cell :=
  List.fold_left (index_step all_name_column points_column) all_rows (∅, []).

(** One iteration of [for row in available_rows] on [(missing_names,
    output_rows)]. *)
Definition join_step (available_name_column : string)
    (points_by_name : gmap cell cell)
    (st : list cell * list joined_row) (row : gmap string cell)
  : list cell * list joined_row :=
  let '(missing_names, output_rows) := st in
  let name := row_get row available_name_column in
  let points := default (Some "") (points_by_name !! name) in
  (if decide (points = Some "") then (missing_names ++ [name])%list
   else missing_names,
   (output_rows ++ [JoinedRow name points])%list).

Definition join_rows (available_name_column : string)
    (points_by_name : gmap cell cell)
    (available_rows : list (gmap string cell)) : list cell * list joined_row :=
  List.fold_left (join_step available_name_column points_by_name)
    available_rows ([], []).

(** ** The run: files, the output file and the printed lines *)

Record world : Type := World {
  files : string -> option (list byte);
  (** the records of AvailableWithPoints.csv once it has been opened for
      writing, [None] while it has not *)
  output : option (list (list string));
  stdout : list string
}.

(** A step of the run either returns or raises, and leaves a world. *)
Definition run (A : Type) : Type := world -> result A * world.

Definition raise {A} (e : exn) : run A := fun w => (Err e, w).

#[global] Instance run_ret : MRet run := fun A a w => (Ok a, w).

#[global] Instance run_bind : MBind run := fun A B k m w =>
  match m w with
  | (Ok a, w') => k a w'
  | (Err e, w') => (Err e, w')
  end.

(** A computation that reads the files but changes nothing. *)
Definition lift {A} (f : (string -> option (list byte)) -> result A) : run A :=
  fun w => (f (files w), w).

Definition print (line : string) : run unit :=
  fun w => (Ok tt, World (files w) (output w) (stdout w ++ [line])%list).

(** What [csv.DictWriter] writes for a cell: [None] is written empty. *)
Definition field (v : cell) : string := default "" v.

(** [writer.writeheader(); writer.writerows(output_rows)] inside
    [with OUTPUT_PATH.open("w", ...)]. *)
Definition write_output (output_rows : list joined_row) : run unit :=
  fun w =>
    (Ok tt,
     World (files w)
       (Some (["Name"; "Points"]
              :: List.map (fun r => [field (Name r); field (Points r)]) output_rows))
       (stdout w)).

(** [', '.join(items)] raises [TypeError] on an item that is not a [str]. *)
Fixpoint str_items (items : list cell) : option (list string) :=
  match items with
  | [] => Some []
  | Some x :: rest => cons x <$> str_items rest
  | None :: _ => None
  end.

Definition warn_list (prefix : string) (values : list cell) : run unit :=
  let items := values in
  match items with
  | [] => mret tt
  | _ =>
      match str_items items with
      | Some names => print ("WARNING: " ++ prefix ++ ": " ++ Text.join ", " names)
      | None => raise TypeError
      end
  end.

Definition main `{Runtime} : run unit :=
  '(all_fields, all_rows) ← lift (fun fs => load_csv fs ALL_VALUES_PATH);
  '(available_fields, available_rows) ← lift (fun fs => load_csv fs AVAILABLE_PATH);
  all_name_column ← lift (fun _ => find_name_column all_fields ALL_VALUES_PATH);
  available_name_column ←
    lift (fun _ => find_name_column available_fields AVAILABLE_PATH);
  points_column ← lift (fun _ => find_points_column all_fields all_rows);
  let '(points_by_name, duplicate_names) :=
    build_index all_name_column points_column all_rows in
  let '(missing_names, output_rows) :=
    join_rows available_name_column points_by_name available_rows in
  write_output output_rows;;
  let unique_duplicates := fromkeys duplicate_names in
  let unique_missing := fromkeys missing_names in
  warn_list "Duplicate names in AllValues.csv (using first occurrence)"
    unique_duplicates;;
  warn_list "Names from Available.csv not found in AllValues.csv"
    unique_missing;;
  print ("Wrote " ++ OUTPUT_PATH ++ " with "
         ++ pretty (List.length output_rows) ++ " rows.").

(** ** A runtime for the examples

    Exact on files of 7-bit bytes without quote characters or carriage
    returns, where the three codecs give the same text and a record is a
    line split at its commas. *)

Fixpoint split_on (sep : ascii) (s : string) : list string :=
  match s with
  | EmptyString => [""]
  | String c s' =>
      if Ascii.eqb c sep then "" :: split_on sep s'
      else match split_on sep s' with
           | x :: xs => String c x :: xs
           | [] => [String c ""]
           end
  end.

Definition plain_lines (text : string) : list string :=
  match List.rev (split_on "010"%char text) with
  | "" :: rest => List.rev rest
  | _ => split_on "010"%char text
  end.

Definition plain_records (text : string) : list (list string) :=
  List.map (fun line => if String.eqb line "" then [] else split_on ","%char line)
    (plain_lines text).

Definition is_digit (c : ascii) : bool :=
  let n := nat_of_ascii c in ((48 <=? n) && (n <=? 57))%nat.

(** Unsigned decimal integers, which [float] parses. *)
Definition plain_number (s : string) : bool :=
  negb (String.eqb s "") && List.forallb is_digit (list_ascii_of_string s).

Definition plain_runtime : Runtime := {|
  float_parses := plain_number;
  csv_records := fun text => (plain_records text, false);
  read_through := fun _ content => Reading (plain_records (decode_latin1 content)) Eof
|}.

Definition bytes_of (s : string) : list byte := list_byte_of_string s.

(** Example inputs. *)

Definition lines (ls : list string) : list byte :=
  bytes_of (String.concat (String "010"%char "") ls ++ String "010"%char "").

Definition example_files (all_values available : list string)
  : string -> option (list byte) :=
  fun path =>
    if String.eqb path ALL_VALUES_PATH then Some (lines all_values)
    else if String.eqb path AVAILABLE_PATH then Some (lines available)
    else None.

Definition example_world (all_values available : list string) : world :=
  World (example_files all_values available) None [].

(** ** The properties in the specification's words *)

(** [h] is the first element of [l], in order, that satisfies [P]. *)
Definition first_such {A} (P : A -> Prop) (l : list A) (h : A) : Prop :=
  exists l1 l2, l = (l1 ++ h :: l2)%list /\ P h /\ Forall (fun x => ~ P x) l1.

Fixpoint all_space (s : string) : Prop :=
  match s with
  | String c s' => Text.is_space c = true /\ all_space s'
  | EmptyString => True
  end.

(** A text has no whitespace at either end. *)
Definition trimmed (s : string) : Prop :=
  forall c s', (s = String c s' -> Text.is_space c = false)
            /\ (s = s' ++ String c "" -> Text.is_space c = false).

(** The lower-cased header contains the substring [name]. *)
Definition name_like (h : string) : Prop :=
  exists pre post, Text.lower h = pre ++ "name" ++ post.

Inductive name_column_spec (fieldnames : list string) (file_label : string)
  : result string -> Prop :=
| name_exact :
    In "Name" fieldnames ->
    name_column_spec fieldnames file_label (Ok "Name")
| name_first_like h :
    ~ In "Name" fieldnames ->
    first_such name_like fieldnames h ->
    name_column_spec fieldnames file_label (Ok h)
| name_missing :
    ~ In "Name" fieldnames ->
    Forall (fun h => ~ name_like h) fieldnames ->
    name_column_spec fieldnames file_label
      (Err (ValueError ("Could not find a name column in " ++ file_label ++ "."))).

(** A cell is blank when it is absent or holds only whitespace. *)
Definition blank (v : cell) : Prop :=
  match v with
  | None => True
  | Some s => all_space s
  end.

Definition parses_as_float `{Runtime} (v : cell) : Prop :=
  exists s, v = Some s /\ float_parses (Text.strip s) = true.

(** The column under [h] has a non-blank cell, and each of its non-blank
    cells parses as a floating-point number. *)
Definition numeric_header `{Runtime} (rows : list (gmap string cell))
    (h : string) : Prop :=
  (exists row, In row rows /\ ~ blank (row_get row h))
  /\ (forall row, In row rows -> ~ blank (row_get row h) ->
        parses_as_float (row_get row h)).

Inductive points_column_spec `{Runtime} (fieldnames : list string)
    (rows : list (gmap string cell)) : result string -> Prop :=
| points_exact :
    In "Points" fieldnames ->
    points_column_spec fieldnames rows (Ok "Points")
| points_first_numeric h :
    ~ In "Points" fieldnames ->
    first_such (numeric_header rows) fieldnames h ->
    points_column_spec fieldnames rows (Ok h)
| points_missing :
    ~ In "Points" fieldnames ->
    Forall (fun h => ~ numeric_header rows h) fieldnames ->
    points_column_spec fieldnames rows
      (Err (ValueError "Could not find a points column in AllValues.csv.")).

(** The joined row of an available-items row: its name, and the points
    cell of the first value-source row of that name, or the empty text
    when no value-source row has that name. *)
Definition joined_as (all_name_column points_column available_name_column : string)
    (all_rows : list (gmap string cell))
    (row : gmap string cell) (out : joined_row) : Prop :=
  Name out = row_get row available_name_column
  /\ ((exists r, first_such (fun r => row_get r all_name_column = Name out) all_rows r
                 /\ Points out = row_get r points_column)
      \/ (Forall (fun r => row_get r all_name_column <> Name out) all_rows
          /\ Points out = Some "")).

(** How often [k] occurs in [l]. *)
Definition occurrences (k : cell) (l : list cell) : nat :=
  List.length (List.filter (fun x => bool_decide (x = k)) l).

(** The names that already occur among the names before them, each such
    occurrence in order; [before] holds the names already seen. *)
Fixpoint repeats_after (before names : list cell) : list cell :=
  match names with
  | [] => []
  | n :: rest =>
      ((if bool_decide (n ∈ before) then [n] else [])
       ++ repeats_after (before ++ [n]) rest)%list
  end.

Definition repeat_occurrences (names : list cell) : list cell :=
  repeats_after [] names.

(** [x] is seen in [l] at a position before which neither [x] nor [y]
    occurs: the first occurrence of [x] comes before any [y]. *)
Definition seen_before {A} (l : list A) (x y : A) : Prop :=
  x <> y /\ exists p, l !! p = Some x /\ (x ∉ take p l) /\ (y ∉ take p l).

(** What the loader makes of the header: the first record the reader
    yields is the header row, its entries trimmed; without a first record,
    or with a blank one, the load fails for want of a header row; an
    exception of the reader is passed on. *)
Inductive header_spec (path : string) (rd : reading) : result table -> Prop :=
| header_absent :
    records rd = [] -> stop_with rd = Eof ->
    header_spec path rd (Err (no_header_row path))
| header_blank rest :
    records rd = [] :: rest ->
    header_spec path rd (Err (no_header_row path))
| header_taken reader_fieldnames rest rows :
    records rd = reader_fieldnames :: rest -> reader_fieldnames <> [] ->
    stop_with rd = Eof ->
    Forall trimmed (List.map Text.strip reader_fieldnames) ->
    header_spec path rd (Ok (List.map Text.strip reader_fieldnames, rows))
| header_interrupted e :
    stop_with rd = Raises e -> (forall rest, records rd <> [] :: rest) ->
    header_spec path rd (Err e).

(** What the loader makes of a record under the header [reader_fieldnames]:
    the row's keys are the trimmed headers; a value is [None] or a trimmed
    text; and, the trimmed headers being distinct, the value under the
    [i]-th header is the trimmed [i]-th cell of the record, [None] when the
    record has no [i]-th cell. *)
Definition row_of (reader_fieldnames record : list string)
    (row : gmap string cell) : Prop :=
  let fieldnames := List.map Text.strip reader_fieldnames in
  (forall k, is_Some (row !! k) <-> k ∈ fieldnames)
  /\ (forall k v, row !! k = Some v -> v = None \/ exists s, v = Some s /\ trimmed s)
  /\ (NoDup fieldnames -> forall i k, fieldnames !! i = Some k ->
        row !! k = Some (Text.strip <$> record !! i)).

(** Loading one of the two input files fails, or inferring one of the three
    columns does. *)
Definition preparation_fails `{Runtime} (fs : string -> option (list byte)) : Prop :=
  match load_csv fs ALL_VALUES_PATH, load_csv fs AVAILABLE_PATH with
  | Ok (all_fields, all_rows), Ok (available_fields, _) =>
      is_ok (find_name_column all_fields ALL_VALUES_PATH) = false
      \/ is_ok (find_name_column available_fields AVAILABLE_PATH) = false
      \/ is_ok (find_points_column all_fields all_rows) = false
  | _, _ => True
  end.

(** The line [warn_list] prints for a non-empty list of names. *)
Definition warning_line (prefix : string) (names : list string) : string :=
  "WARNING: " ++ prefix ++ ": " ++ Text.join ", " names.

(** What the two calls of [warn_list] print for a list of names: nothing for
    the empty list, one line otherwise. *)
Definition warning_lines (prefix : string) (names : list string) : list string :=
  match names with
  | [] => []
  | _ => [warning_line prefix names]
  end.

(** An attempt ends in [UnicodeDecodeError]. *)
Definition is_decode_error {A} (r : result A) : bool :=
  match r with
  | Err (UnicodeDecodeError _) => true
  | _ => false
  end.

(** * Properties *)

(** ** Text *)

Lemma append_cons c s t : String c s ++ t = String c (s ++ t).
Proof. reflexivity. Qed.

Lemma append_empty s : "" ++ s = s.
Proof. reflexivity. Qed.

Ltac norm_append := rewrite ?append_cons, ?append_empty in *.

Lemma lstrip_split s :
  exists pre, s = pre ++ Text.lstrip s /\ all_space pre.
Proof.
  induction s as [|c s IH]; simpl.
  - exists ""; split; [reflexivity | exact I].
  - destruct (Text.is_space c) eqn:Hc.
    + destruct IH as (pre & Heq & Hsp).
      exists (String c pre); norm_append; split; [congruence | simpl; auto].
    + exists ""; split; [reflexivity | exact I].
Qed.

Lemma lstrip_head s c s' :
  Text.lstrip s = String c s' -> Text.is_space c = false.
Proof.
  induction s as [|a s IH]; simpl; [discriminate|].
  destruct (Text.is_space a) eqn:Ha; [exact IH|].
  intros [= -> _]; exact Ha.
Qed.

Lemma rstrip_split s :
  exists post, s = Text.rstrip s ++ post /\ all_space post.
Proof.
  induction s as [|c s IH]; simpl.
  - exists ""; split; [reflexivity | exact I].
  - destruct IH as (post & Heq & Hsp).
    destruct (Text.rstrip s) as [|b r] eqn:Hr.
    + destruct (Text.is_space c) eqn:Hc; norm_append.
      * exists (String c post); norm_append; split; [congruence | simpl; auto].
      * exists post; norm_append; split; [congruence | auto].
    + exists post; norm_append; split; [congruence | auto].
Qed.

Lemma rstrip_head s c :
  Text.is_space c = false -> exists r, Text.rstrip (String c s) = String c r.
Proof.
  intros Hc; simpl. destruct (Text.rstrip s); [rewrite Hc|]; eauto.
Qed.

Lemma rstrip_last s c s' :
  Text.rstrip s = s' ++ String c "" -> Text.is_space c = false.
Proof.
  revert s'; induction s as [|a s IH]; intros s'; simpl.
  - destruct s'; norm_append; discriminate.
  - destruct (Text.rstrip s) as [|b r] eqn:Hr.
    + destruct (Text.is_space a) eqn:Ha.
      * destruct s'; norm_append; discriminate.
      * destruct s' as [|x s']; norm_append; [intros [= <-]; exact Ha|].
        destruct s'; norm_append; discriminate.
    + destruct s' as [|x s']; norm_append; [discriminate|].
      intros [= _ H]. exact (IH _ H).
Qed.

Lemma strip_trimmed s : trimmed (Text.strip s).
Proof.
  intros c s'; unfold Text.strip; split; [|apply rstrip_last].
  destruct (Text.lstrip s) as [|a l] eqn:Hl; [discriminate|].
  pose proof (lstrip_head _ _ _ Hl) as Ha.
  destruct (rstrip_head l a Ha) as [r ->].
  intros [= <- _]; exact Ha.
Qed.

Lemma all_space_app s t : all_space s -> all_space t -> all_space (s ++ t).
Proof.
  induction s; norm_append; simpl; [auto | intros [? ?] ?; auto].
Qed.

Lemma rstrip_all_space s : all_space s -> Text.rstrip s = "".
Proof.
  induction s as [|c s IH]; simpl; [reflexivity|].
  intros [Hc Hs]; rewrite (IH Hs), Hc; reflexivity.
Qed.

Lemma lstrip_all_space s : all_space s -> Text.lstrip s = "".
Proof.
  induction s as [|c s IH]; simpl; [reflexivity|].
  intros [Hc Hs]; rewrite Hc; auto.
Qed.

(** [s.strip()] only removes whitespace, and a text trims to the empty
    text exactly when it holds nothing but whitespace. *)
Lemma strip_split s :
  exists pre post, s = pre ++ Text.strip s ++ post /\ all_space pre /\ all_space post.
Proof.
  destruct (lstrip_split s) as (pre & Hs & Hpre).
  destruct (rstrip_split (Text.lstrip s)) as (post & Hl & Hpost).
  exists pre, post; unfold Text.strip; rewrite <- Hl; auto.
Qed.

Lemma strip_empty_iff s : Text.strip s = "" <-> all_space s.
Proof.
  split.
  - intros He. destruct (strip_split s) as (pre & post & Hs & Hpre & Hpost).
    rewrite He in Hs; norm_append; rewrite Hs. by apply all_space_app.
  - intros Hs; unfold Text.strip; rewrite (lstrip_all_space _ Hs); reflexivity.
Qed.

Lemma prefix_cons a sub b s :
  String.prefix (String a sub) (String b s)
  = if ascii_dec a b then String.prefix sub s else false.
Proof. reflexivity. Qed.

Lemma prefix_split sub s :
  String.prefix sub s = true <-> exists post, s = sub ++ post.
Proof.
  revert s; induction sub as [|a sub IH]; intros s.
  - split; [exists s; reflexivity | destruct s; reflexivity].
  - destruct s as [|b s].
    { split; [discriminate | intros [? ?]; norm_append; discriminate]. }
    rewrite prefix_cons. destruct (ascii_dec a b) as [->|Hne].
    + rewrite IH; split; intros [post H]; exists post; norm_append; congruence.
    + split; [discriminate | intros [post H]; norm_append; congruence].
Qed.

Lemma contains_split sub s :
  Text.contains sub s = true <-> exists pre post, s = pre ++ sub ++ post.
Proof.
  induction s as [|c s IH].
  - change (Text.contains sub "") with (String.prefix sub "" || false).
    rewrite orb_false_r, prefix_split; split.
    + intros [post H]; exists "", post; exact H.
    + intros (pre & post & H). destruct pre; norm_append; [eauto | discriminate].
  - change (Text.contains sub (String c s))
      with (String.prefix sub (String c s) || Text.contains sub s).
    rewrite orb_true_iff, IH, prefix_split; split.
    + intros [[post H] | (pre & post & H)].
      * exists "", post; exact H.
      * exists (String c pre), post; norm_append; congruence.
    + intros (pre & post & H). destruct pre as [|a pre]; norm_append.
      * left; eauto.
      * right; exists pre, post; congruence.
Qed.

(** ** [next((x for x in l if f x), None)] *)

Lemma find_first {A} (f : A -> bool) l x :
  List.find f l = Some x -> first_such (fun y => f y = true) l x.
Proof.
  induction l as [|a l IH]; simpl; [discriminate|].
  destruct (f a) eqn:Ha.
  - intros [= <-]; exists [], l; auto.
  - intros H; destruct (IH H) as (l1 & l2 & -> & Hx & Hl1).
    exists (a :: l1), l2; repeat split; auto.
    constructor; [congruence | exact Hl1].
Qed.

Lemma find_nothing {A} (f : A -> bool) l :
  List.find f l = None -> Forall (fun y => f y <> true) l.
Proof.
  induction l as [|a l IH]; simpl; [constructor|].
  destruct (f a) eqn:Ha; [discriminate|].
  constructor; [congruence | auto].
Qed.

Lemma first_such_iff {A} (P Q : A -> Prop) l x :
  (forall y, P y <-> Q y) -> first_such P l x -> first_such Q l x.
Proof.
  intros HPQ (l1 & l2 & -> & Hx & Hl1); exists l1, l2; repeat split.
  - by apply HPQ.
  - eapply Forall_impl; [exact Hl1 | intros y Hy HQ; apply Hy, HPQ, HQ].
Qed.

Lemma find_exact target fieldnames :
  truthy (List.find (fun name => String.eqb name target) fieldnames) = true ->
  List.find (fun name => String.eqb name target) fieldnames = Some target
  /\ In target fieldnames.
Proof.
  destruct (List.find _ fieldnames) as [x|] eqn:Hf; [|discriminate].
  intros _. apply find_some in Hf as [Hin Heq].
  apply String.eqb_eq in Heq; subst; auto.
Qed.

Lemma find_exact_none target fieldnames :
  target <> "" ->
  truthy (List.find (fun name => String.eqb name target) fieldnames) = false ->
  ~ In target fieldnames.
Proof.
  intros Hne Ht Hin.
  destruct (List.find _ fieldnames) as [x|] eqn:Hf.
  - apply find_some in Hf as [_ Heq]. apply String.eqb_eq in Heq; subst.
    simpl in Ht. apply negb_false_iff, String.eqb_eq in Ht; contradiction.
  - eapply find_none in Hf; [|exact Hin]. rewrite String.eqb_refl in Hf; discriminate.
Qed.

(** ** Column inference *)

Lemma name_like_iff h :
  Text.contains "name" (Text.lower h) = true <-> name_like h.
Proof. apply contains_split. Qed.

(** C6. Name-column inference returns the header [Name] when the header
    list has it; otherwise the first header, in header order, whose
    lower-cased text contains [name]; otherwise it fails with the error
    that names the file which lacks a name-like column. *)
Theorem find_name_column_spec fieldnames file_label :
  name_column_spec fieldnames file_label (find_name_column fieldnames file_label).
Proof.
  unfold find_name_column.
  destruct (truthy (List.find (fun name => String.eqb name "Name") fieldnames)) eqn:Hex.
  - apply find_exact in Hex as [-> Hin]. by apply name_exact.
  - apply find_exact_none in Hex; [|discriminate].
    destruct (List.find (fun name => Text.contains "name" (Text.lower name)) fieldnames)
      as [h|] eqn:Hf; simpl.
    + pose proof (find_first _ _ _ Hf) as Hfirst.
      assert (h <> "") as Hne.
      { apply find_some in Hf as [_ Hc]. intros ->. discriminate. }
      destruct (String.eqb h "") eqn:He; [apply String.eqb_eq in He; contradiction|].
      simpl. apply name_first_like; [exact Hex|].
      eapply first_such_iff; [|exact Hfirst]. intros y; apply name_like_iff.
    + apply name_missing; [exact Hex|].
      eapply Forall_impl; [apply find_nothing, Hf|].
      intros y Hy Hl; apply Hy, name_like_iff, Hl.
Qed.

Section Points.
Context `{Runtime}.

Lemma non_blank_iff v : non_blank v = true <-> ~ blank v.
Proof.
  destruct v as [s|]; simpl; [|split; [discriminate | tauto]].
  rewrite <- strip_empty_iff, negb_true_iff.
  split; [intros He Hs; rewrite Hs in He; discriminate|].
  intros Hne. destruct (String.eqb_spec (Text.strip s) ""); [contradiction | reflexivity].
Qed.

Lemma is_numeric_iff v : ~ blank v -> is_numeric v = true <-> parses_as_float v.
Proof.
  intros Hnb. apply non_blank_iff in Hnb.
  destruct v as [s|]; simpl in *; [|discriminate].
  apply negb_true_iff in Hnb; rewrite Hnb.
  split; [intros Hf; exists s; auto | intros (s' & [= <-] & Hf); exact Hf].
Qed.

Lemma numeric_column_iff rows h :
  numeric_column rows h = true <-> numeric_header rows h.
Proof.
  unfold numeric_column, numeric_header.
  rewrite andb_true_iff, negb_true_iff, Nat.eqb_neq, forallb_forall.
  split.
  - intros [Hlen Hall]; split.
    + destruct (List.filter _ _) as [|v vs] eqn:Hf; [contradiction|].
      assert (In v (List.filter non_blank
                      (List.map (fun row => row_get row h) rows))) as Hv
        by (rewrite Hf; left; reflexivity).
      apply filter_In in Hv as [Hv Hnb].
      apply in_map_iff in Hv as (row & <- & Hrow).
      exists row; split; [exact Hrow | by apply non_blank_iff].
    + intros row Hrow Hnb. apply is_numeric_iff; [exact Hnb|].
      apply Hall, filter_In; split; [|by apply non_blank_iff].
      apply in_map_iff; eauto.
  - intros [(row & Hrow & Hnb) Hall]; split.
    + intros Hlen. apply length_zero_iff_nil in Hlen.
      assert (In (row_get row h) (List.filter non_blank
                (List.map (fun row => row_get row h) rows))) as Hin.
      { apply filter_In; split; [|by apply non_blank_iff].
        apply in_map_iff; eauto. }
      rewrite Hlen in Hin; destruct Hin.
    + intros v Hv. apply filter_In in Hv as [Hv Hvb].
      apply in_map_iff in Hv as (row' & <- & Hrow').
      apply non_blank_iff in Hvb. apply is_numeric_iff; auto.
Qed.

(** C5. Points-column inference returns the header [Points] when the
    header list has it; otherwise the first header, in header order, whose
    column has a non-blank cell and only non-blank cells that parse as
    floating-point numbers; otherwise it fails, and it fails in no other
    case. *)
Theorem find_points_column_spec fieldnames rows :
  points_column_spec fieldnames rows (find_points_column fieldnames rows)
  /\ (is_ok (find_points_column fieldnames rows) = false
      <-> ~ In "Points" fieldnames
          /\ Forall (fun h => ~ numeric_header rows h) fieldnames).
Proof.
  unfold find_points_column.
  destruct (truthy (List.find (fun name => String.eqb name "Points") fieldnames))
    eqn:Hex.
  - apply find_exact in Hex as [-> Hin]; simpl; split.
    + by apply points_exact.
    + split; [discriminate | intros [Hn _]; contradiction].
  - apply find_exact_none in Hex; [|discriminate].
    destruct (List.find (numeric_column rows) fieldnames) as [h|] eqn:Hf; simpl.
    + pose proof (find_first _ _ _ Hf) as Hfirst.
      eapply first_such_iff in Hfirst; [|intros y; apply numeric_column_iff].
      split; [by apply points_first_numeric|].
      split; [discriminate|]. intros [_ Hall].
      destruct Hfirst as (l1 & l2 & -> & Hh & _).
      apply Forall_app in Hall as [_ Hall].
      apply Forall_cons in Hall as [Hn _]; contradiction.
    + assert (Forall (fun h => ~ numeric_header rows h) fieldnames) as Hall.
      { eapply Forall_impl; [apply find_nothing, Hf|].
        intros y Hy Hn; apply Hy, numeric_column_iff, Hn. }
      split; [by apply points_missing | tauto].
Qed.

End Points.

Lemma map_lookup {A B} (f : A -> B) (l : list A) i :
  List.map f l !! i = f <$> l !! i.
Proof. apply (list_lookup_fmap f). Qed.

Lemma map_elem {A B} (f : A -> B) (l : list A) y :
  y ∈ List.map f l <-> exists x, y = f x /\ x ∈ l.
Proof. apply (list_elem_of_fmap f). Qed.

(** ** Occurrences, repeats and [dict.fromkeys] *)

Lemma occurrences_cons k n l :
  occurrences k (n :: l) = (if bool_decide (n = k) then 1 else 0) + occurrences k l.
Proof. unfold occurrences; simpl; destruct (bool_decide (n = k)); reflexivity. Qed.

Lemma occurrences_app k l1 l2 :
  occurrences k (l1 ++ l2)%list = occurrences k l1 + occurrences k l2.
Proof. unfold occurrences; rewrite List.filter_app, length_app; reflexivity. Qed.

Lemma occurrences_pos k l : k ∈ l <-> 0 < occurrences k l.
Proof.
  induction l as [|n l IH]; [rewrite elem_of_nil; unfold occurrences; simpl; lia|].
  rewrite occurrences_cons, elem_of_cons, IH.
  case_bool_decide as Hn; split.
  - intros _; lia.
  - intros _; left; congruence.
  - intros [?|?]; [congruence | lia].
  - intros ?; right; lia.
Qed.

Lemma occurrences_repeats k before names :
  occurrences k (repeats_after before names)
  = if bool_decide (k ∈ before) then occurrences k names
    else occurrences k names - 1.
Proof.
  revert before; induction names as [|n names IH]; intros before.
  - simpl; case_bool_decide; reflexivity.
  - cbn [repeats_after]. rewrite occurrences_app, IH, !occurrences_cons.
    assert (k ∈ (before ++ [n])%list <-> k ∈ before \/ k = n) as Hsnoc
      by (rewrite elem_of_app, list_elem_of_singleton; reflexivity).
    assert (occurrences k [] = 0) as Hnil by reflexivity.
    destruct (decide (n = k)) as [->|Hn].
    + rewrite (bool_decide_eq_true_2 (k ∈ (before ++ [k])%list)) by tauto.
      rewrite (bool_decide_eq_true_2 (k = k)) by reflexivity.
      case_bool_decide; rewrite ?occurrences_cons, ?Hnil;
        rewrite ?(bool_decide_eq_true_2 (k = k)) by reflexivity; lia.
    + rewrite (bool_decide_eq_false_2 (n = k)) by exact Hn.
      assert (occurrences k (if bool_decide (n ∈ before) then [n] else []) = 0)
        as ->.
      { case_bool_decide; [|reflexivity].
        rewrite occurrences_cons, bool_decide_eq_false_2, Hnil by exact Hn; lia. }
      destruct (decide (k ∈ before)) as [Hk|Hk].
      * rewrite !bool_decide_eq_true_2 by tauto; lia.
      * rewrite !bool_decide_eq_false_2
          by first [exact Hk | rewrite Hsnoc; intros [?|?]; [tauto | congruence]].
        lia.
Qed.

Section Fromkeys.
Context {K : Type} `{EqDecision K}.

Lemma dict_set_keys (k : K) (d : list (K * unit)) :
  List.map fst (dict_set k tt d)
  = if bool_decide (k ∈ List.map fst d) then List.map fst d
    else (List.map fst d ++ [k])%list.
Proof.
  induction d as [|[k' []] d IH]; [reflexivity|].
  - cbn [dict_set]. destruct (decide (k = k')) as [->|Hne]; cbn [List.map fst].
    + rewrite bool_decide_eq_true_2; [reflexivity | left].
    + rewrite IH. case_bool_decide as Hin.
      * rewrite bool_decide_eq_true_2; [reflexivity | by right].
      * rewrite bool_decide_eq_false_2; [reflexivity|].
        rewrite elem_of_cons; intros [?|?]; auto.
Qed.

(** A name is appended to the keys the first time it is seen. *)
Lemma fromkeys_snoc (l : list K) x :
  fromkeys (l ++ [x])%list
  = if bool_decide (x ∈ fromkeys l) then fromkeys l else (fromkeys l ++ [x])%list.
Proof. unfold fromkeys; rewrite fold_left_app; simpl; apply dict_set_keys. Qed.

Lemma fromkeys_elem (l : list K) x : x ∈ fromkeys l <-> x ∈ l.
Proof.
  induction l as [|a l IH] using rev_ind; [reflexivity|].
  rewrite fromkeys_snoc, elem_of_app, list_elem_of_singleton.
  case_bool_decide as Ha.
  - rewrite IH; split; [auto | intros [?| ->]; [auto | by apply IH]].
  - rewrite elem_of_app, list_elem_of_singleton, IH; reflexivity.
Qed.

Lemma fromkeys_NoDup (l : list K) : NoDup (fromkeys l).
Proof.
  induction l as [|a l IH] using rev_ind; [constructor|].
  rewrite fromkeys_snoc. case_bool_decide as Ha; [exact IH|].
  apply NoDup_app; repeat split; [exact IH | | apply NoDup_singleton].
  intros x Hx; rewrite list_elem_of_singleton; intros ->; contradiction.
Qed.

Lemma seen_before_snoc (l : list K) a x y :
  seen_before l x y -> seen_before (l ++ [a])%list x y.
Proof.
  intros (Hne & p & Hp & Hx & Hy); split; [exact Hne|]; exists p.
  rewrite take_app_le by (apply lookup_lt_Some in Hp; lia).
  auto using lookup_app_l_Some.
Qed.

(** The keys stand in first-seen order. *)
Lemma fromkeys_order (l : list K) i j x y :
  i < j -> fromkeys l !! i = Some x -> fromkeys l !! j = Some y ->
  seen_before l x y.
Proof.
  revert i j x y; induction l as [|a l IH] using rev_ind; intros i j x y Hij.
  - discriminate.
  - rewrite fromkeys_snoc. case_bool_decide as Ha.
    + intros Hi Hj; apply seen_before_snoc; eauto.
    + rewrite !lookup_snoc_Some.
      intros [[Hil Hi]|[-> ->]] [[Hjl Hj]|[-> ->]]; try lia.
      * apply seen_before_snoc; eauto.
      * assert (x ∈ l) as Hx by (eapply fromkeys_elem, list_elem_of_lookup_2, Hi).
        assert (y ∉ l) as Hy by (intros Hy; apply Ha, fromkeys_elem, Hy).
        split; [intros ->; contradiction|].
        destruct (list_elem_of_split_l _ _ Hx) as (l1 & l2 & -> & Hx1).
        exists (length l1).
        rewrite <- app_assoc, take_app_length. repeat split; auto.
        -- rewrite lookup_app_r, Nat.sub_diag by lia; reflexivity.
        -- intros Hin; apply Hy; rewrite elem_of_app; auto.
Qed.

End Fromkeys.

(** ** The join *)

Section Join.
Variables all_name_column points_column available_name_column : string.

Local Abbreviation name_of := (fun r : gmap string cell => row_get r all_name_column).
Local Abbreviation points_of := (fun r : gmap string cell => row_get r points_column).
Local Abbreviation named k := (fun r : gmap string cell =>
  bool_decide (row_get r all_name_column = k)).

(** A key already in the index keeps its value and is recorded as a
    duplicate; a new key is inserted with the row's points. *)
Lemma index_step_present idx dups row v :
  idx !! name_of row = Some v ->
  index_step all_name_column points_column (idx, dups) row
  = (idx, (dups ++ [name_of row])%list).
Proof. intros Hv; simpl; rewrite Hv; reflexivity. Qed.

Lemma index_step_absent idx dups row :
  idx !! name_of row = None ->
  index_step all_name_column points_column (idx, dups) row
  = (<[name_of row := points_of row]> idx, dups).
Proof. intros Hv; simpl; rewrite Hv; reflexivity. Qed.

Lemma index_fold_lookup rows idx dups k :
  (List.fold_left (index_step all_name_column points_column) rows (idx, dups)).1 !! k
  = match idx !! k with
    | Some v => Some v
    | None => points_of <$> List.find (named k) rows
    end.
Proof.
  revert idx dups; induction rows as [|r rows IH]; intros idx dups.
  - simpl; destruct (idx !! k); reflexivity.
  - cbn [List.fold_left List.find].
    destruct (idx !! name_of r) as [v|] eqn:Hr.
    + rewrite (index_step_present _ _ _ _ Hr), IH.
      destruct (idx !! k) eqn:Hk; [reflexivity|].
      rewrite bool_decide_eq_false_2; [reflexivity | congruence].
    + rewrite (index_step_absent _ _ _ Hr), IH.
      destruct (decide (name_of r = k)) as [<-|Hne].
      * rewrite lookup_insert_eq, Hr, bool_decide_eq_true_2; reflexivity.
      * rewrite lookup_insert_ne, bool_decide_eq_false_2; auto.
Qed.

(** The index maps a name to the points of the first row of that name. *)
Lemma build_index_lookup all_rows k :
  (build_index all_name_column points_column all_rows).1 !! k
  = points_of <$> List.find (named k) all_rows.
Proof. unfold build_index; rewrite index_fold_lookup, lookup_empty; reflexivity. Qed.

Lemma join_fold idx rows missing out :
  List.fold_left (join_step available_name_column idx) rows (missing, out)
  = ((missing ++ List.map (fun row => row_get row available_name_column)
        (List.filter
           (fun row => bool_decide
              (default (Some "") (idx !! row_get row available_name_column) = Some ""))
           rows))%list,
     (out ++ List.map
        (fun row => JoinedRow (row_get row available_name_column)
           (default (Some "") (idx !! row_get row available_name_column)))
        rows)%list).
Proof.
  revert missing out; induction rows as [|r rows IH]; intros missing out.
  - simpl; rewrite !app_nil_r; reflexivity.
  - cbn [List.fold_left List.filter List.map join_step]. rewrite IH.
    destruct (decide (default (Some "") (idx !! row_get r available_name_column)
                      = Some "")) as [He|Hne].
    + rewrite (bool_decide_eq_true_2 _ He); simpl; rewrite <- !app_assoc; reflexivity.
    + rewrite (bool_decide_eq_false_2 _ Hne); simpl; rewrite <- !app_assoc; reflexivity.
Qed.

Lemma join_rows_output idx rows :
  (join_rows available_name_column idx rows).2
  = List.map
      (fun row => JoinedRow (row_get row available_name_column)
         (default (Some "") (idx !! row_get row available_name_column)))
      rows.
Proof. unfold join_rows; rewrite join_fold; reflexivity. Qed.

(** The names recorded as missing are those of the rows joined with the
    empty text, every occurrence, in order. *)
Lemma join_rows_missing idx rows :
  (join_rows available_name_column idx rows).1
  = List.map (fun row => row_get row available_name_column)
      (List.filter
         (fun row => bool_decide
            (default (Some "") (idx !! row_get row available_name_column) = Some ""))
         rows).
Proof. unfold join_rows; rewrite join_fold; reflexivity. Qed.

(** A name is recorded as missing exactly when a row carries it and the
    index gives it no points or the empty text: an absent name is recorded,
    and so is a present name whose points are empty. *)
Lemma missing_iff_empty_points idx rows name :
  name ∈ (join_rows available_name_column idx rows).1
  <-> (exists row, row ∈ rows /\ row_get row available_name_column = name)
      /\ (idx !! name = None \/ idx !! name = Some (Some "")).
Proof.
  rewrite join_rows_missing, map_elem. split.
  - intros (row & -> & Hrow).
    apply list_elem_of_In, filter_In in Hrow as [Hrow Hp].
    apply bool_decide_eq_true in Hp. apply list_elem_of_In in Hrow.
    split; [eauto|]. destruct (idx !! _) as [v|]; [right | left; reflexivity].
    simpl in Hp; congruence.
  - intros [(row & Hrow & <-) Hidx]. exists row; split; [reflexivity|].
    apply list_elem_of_In, filter_In; split; [by apply list_elem_of_In|].
    apply bool_decide_eq_true; cbn beta.
    assert (forall o : option cell,
              o = None \/ o = Some (Some "") -> default (Some "") o = Some "")
      as Hdefault by (intros o [-> | ->]; reflexivity).
    apply Hdefault, Hidx.
Qed.

Lemma Forall2_map_graph {A B} (P : A -> B -> Prop) (f : A -> B) l :
  (forall x, P x (f x)) -> Forall2 P l (List.map f l).
Proof. intros HP; induction l; simpl; constructor; auto. Qed.

Lemma index_fold_dups rows idx dups before :
  (forall k, is_Some (idx !! k) <-> k ∈ before) ->
  (List.fold_left (index_step all_name_column points_column) rows (idx, dups)).2
  = (dups ++ repeats_after before (List.map name_of rows))%list.
Proof.
  revert idx dups before; induction rows as [|r rows IH]; intros idx dups before Hinv.
  - simpl; rewrite app_nil_r; reflexivity.
  - cbn [List.fold_left List.map repeats_after].
    destruct (idx !! name_of r) as [v|] eqn:Hr.
    + rewrite (index_step_present _ _ _ _ Hr).
      assert (name_of r ∈ before) as Hin by (apply Hinv; eauto).
      rewrite (IH _ _ (before ++ [name_of r])%list).
      * rewrite (bool_decide_eq_true_2 _ Hin), <- app_assoc; reflexivity.
      * intros k; rewrite Hinv, elem_of_app, list_elem_of_singleton.
        split; [auto | intros [?| ->]; auto].
    + rewrite (index_step_absent _ _ _ Hr).
      assert (name_of r ∉ before) as Hnin.
      { intros Hin; apply Hinv in Hin as [v Hv]; congruence. }
      rewrite (IH _ _ (before ++ [name_of r])%list).
      * rewrite (bool_decide_eq_false_2 _ Hnin); reflexivity.
      * intros k; rewrite lookup_insert_is_Some', Hinv, elem_of_app,
          list_elem_of_singleton. split; intros [?|?]; auto.
Qed.

Lemma build_index_duplicates all_rows :
  (build_index all_name_column points_column all_rows).2
  = repeat_occurrences (List.map name_of all_rows).
Proof.
  unfold build_index, repeat_occurrences.
  rewrite (index_fold_dups _ _ _ []); [reflexivity|].
  intros k; rewrite lookup_empty, elem_of_nil; split; [intros [? ?]; discriminate | tauto].
Qed.

(** C1. Left-join correctness: the joined rows stand one for one, in input
    order, for the rows of the available-items table; each carries its
    row's name and, as Points, the points cell of the first value-source
    row of that name, or the empty text when no value-source row has it. *)
Theorem left_join_correct all_rows available_rows :
  let points_by_name := (build_index all_name_column points_column all_rows).1 in
  let output_rows :=
    (join_rows available_name_column points_by_name available_rows).2 in
  Forall2 (joined_as all_name_column points_column available_name_column all_rows)
    available_rows output_rows.
Proof.
  intros points_by_name output_rows; subst points_by_name output_rows.
  rewrite join_rows_output. apply Forall2_map_graph; intros row.
  split; [reflexivity|]. cbn [Name Points].
  rewrite build_index_lookup.
  destruct (List.find _ all_rows) as [r|] eqn:Hf; simpl.
  - left; exists r; split; [|reflexivity].
    eapply first_such_iff; [|exact (find_first _ _ _ Hf)].
    intros y; simpl; apply bool_decide_eq_true.
  - right; split; [|reflexivity].
    eapply Forall_impl; [exact (find_nothing _ _ Hf)|].
    intros y Hy He; apply Hy; simpl; by apply bool_decide_eq_true.
Qed.

(** X16. First occurrence wins in the index, and the duplicate list as it
    is handed to [warn_list]: the index maps a name to the points of the
    first value-source row of that name; the duplicate list holds every
    repeat occurrence, so a name occurring [n] times is recorded [n - 1]
    times; the deduplicated list has no repetition, holds exactly the
    names occurring twice or more, and lists them in the order in which
    they were first recorded. Whether the list is then printed is the
    matter of [warn_list]. *)
Theorem first_occurrence_wins all_rows :
  let names := List.map name_of all_rows in
  let points_by_name := (build_index all_name_column points_column all_rows).1 in
  let duplicate_names := (build_index all_name_column points_column all_rows).2 in
  let unique_duplicates := fromkeys duplicate_names in
  (forall k, points_by_name !! k = points_of <$> List.find (named k) all_rows)
  /\ duplicate_names = repeat_occurrences names
  /\ (forall k, occurrences k duplicate_names = occurrences k names - 1)
  /\ NoDup unique_duplicates
  /\ (forall k, k ∈ unique_duplicates <-> 2 <= occurrences k names)
  /\ (forall i j x y, i < j ->
        unique_duplicates !! i = Some x -> unique_duplicates !! j = Some y ->
        seen_before duplicate_names x y).
Proof.
  intros names points_by_name duplicate_names unique_duplicates.
  assert (forall k, occurrences k duplicate_names = occurrences k names - 1) as Hocc.
  { intros k; subst duplicate_names; rewrite build_index_duplicates.
    unfold repeat_occurrences; rewrite occurrences_repeats.
    rewrite bool_decide_eq_false_2; [reflexivity | apply not_elem_of_nil]. }
  refine (conj _ (conj _ (conj Hocc (conj _ (conj _ _))))).
  - apply build_index_lookup.
  - apply build_index_duplicates.
  - apply fromkeys_NoDup.
  - intros k; unfold unique_duplicates.
    rewrite fromkeys_elem, occurrences_pos, Hocc; lia.
  - intros i j x y; apply fromkeys_order.
Qed.

(** C2. Totality of the join: whatever the index holds, the number of
    joined rows is the number of rows of the available-items table. *)
Theorem join_total all_rows available_rows :
  let points_by_name := (build_index all_name_column points_column all_rows).1 in
  List.length (join_rows available_name_column points_by_name available_rows).2
  = List.length available_rows.
Proof. intros idx; rewrite join_rows_output; apply length_map. Qed.

End Join.

(** ** The loader *)

Lemma read_table_header path rd : header_spec path rd (read_table path rd).
Proof.
  unfold read_table.
  destruct (records rd) as [|hdr rest] eqn:Hrec.
  - destruct (stop_with rd) as [|e] eqn:Hstop.
    + by apply header_absent.
    + apply header_interrupted; [exact Hstop | intros rest'; congruence].
  - destruct hdr as [|h hdr]; cbn [is_blank_record].
    + by apply (header_blank _ _ rest).
    + destruct (stop_with rd) as [|e] eqn:Hstop.
      * apply (header_taken _ _ (h :: hdr) rest); auto.
        apply List.Forall_forall; intros x Hx.
        apply in_map_iff in Hx as (y & <- & _). apply strip_trimmed.
      * apply header_interrupted; [exact Hstop | intros rest'; congruence].
Qed.

Lemma read_table_error path rd e :
  read_table path rd = Err e -> e = no_header_row path \/ stop_with rd = Raises e.
Proof.
  unfold read_table. destruct (records rd) as [|hdr rest].
  - destruct (stop_with rd); intros [= <-]; auto.
  - destruct (is_blank_record hdr); [intros [= <-]; auto|].
    destruct (stop_with rd); [discriminate | intros [= <-]; auto].
Qed.

(** *** Insertion-ordered dictionaries *)

Section Dict.
Context {K V X : Type} `{EqDecision K}.
Variables (kf : X -> K) (vf : X -> V).

Lemma dict_set_fresh (k : K) (v : V) d :
  k ∉ List.map fst d -> dict_set k v d = (d ++ [(k, v)])%list.
Proof.
  induction d as [|[k' v'] d IH]; [reflexivity|]. cbn [dict_set List.map fst].
  rewrite not_elem_of_cons; intros [Hne Hd].
  destruct (decide (k = k')); [contradiction|]. rewrite IH by exact Hd; reflexivity.
Qed.

Lemma dict_set_key_elem (k0 : K) (v : V) d k :
  k ∈ List.map fst (dict_set k0 v d) <-> k = k0 \/ k ∈ List.map fst d.
Proof.
  induction d as [|[k' v'] d IH]; cbn [dict_set List.map fst].
  - rewrite list_elem_of_singleton, elem_of_nil; tauto.
  - destruct (decide (k0 = k')) as [->|Hne]; cbn [List.map fst];
      rewrite !elem_of_cons; [tauto | rewrite IH; tauto].
Qed.

Lemma fold_dict_set_keys xs (d0 : list (K * V)) k :
  k ∈ List.map fst (List.fold_left (fun d x => dict_set (kf x) (vf x) d) xs d0)
  <-> k ∈ List.map fst d0 \/ k ∈ List.map kf xs.
Proof.
  revert d0; induction xs as [|x xs IH]; intros d0; cbn [List.fold_left List.map].
  - rewrite elem_of_nil; tauto.
  - rewrite IH, dict_set_key_elem, elem_of_cons; tauto.
Qed.

Lemma fold_dict_set_fresh xs (d0 : list (K * V)) :
  NoDup (List.map fst d0 ++ List.map kf xs)%list ->
  List.fold_left (fun d x => dict_set (kf x) (vf x) d) xs d0
  = (d0 ++ List.map (fun x => (kf x, vf x)) xs)%list.
Proof.
  revert d0; induction xs as [|x xs IH]; intros d0; cbn [List.fold_left List.map].
  - intros _; rewrite app_nil_r; reflexivity.
  - intros Hnd. apply NoDup_app in Hnd as (Hd0 & Hdisj & Hxs).
    apply NoDup_cons in Hxs as [Hx Hxs].
    assert (kf x ∉ List.map fst d0) as Hfresh.
    { intros Hin; apply (Hdisj _ Hin); left. }
    rewrite (dict_set_fresh _ _ _ Hfresh), IH.
    + rewrite <- app_assoc; reflexivity.
    + rewrite List.map_app; cbn [List.map fst]. rewrite <- app_assoc; cbn [app].
      apply NoDup_app; split; [exact Hd0|]; split.
      * intros k Hk; rewrite elem_of_cons; intros [->|Hk']; [contradiction|].
        apply (Hdisj _ Hk); by right.
      * by apply NoDup_cons.
Qed.

End Dict.

Lemma combine_fst_take {A B} (l : list A) (k : list B) :
  List.map fst (List.combine l k) = take (List.length k) l.
Proof.
  revert k; induction l as [|a l IH]; intros [|b k]; simpl; try reflexivity.
  rewrite IH; reflexivity.
Qed.

Lemma combine_lookup {A B} (l : list A) (k : list B) i a b :
  l !! i = Some a -> k !! i = Some b -> List.combine l k !! i = Some (a, b).
Proof.
  revert k i; induction l as [|a' l IH]; intros [|b' k] [|i]; simpl; try discriminate.
  - intros [= ->] [= ->]; reflexivity.
  - apply IH.
Qed.

(** *** [csv.DictReader] rows *)

Lemma zip_fold_keys (fieldnames row : list string) d0 k :
  k ∈ List.map fst
        (List.fold_left (fun d kv => dict_set (fst kv) (Some (snd kv)) d)
           (List.combine fieldnames row) d0)
  <-> k ∈ List.map fst d0 \/ k ∈ take (List.length row) fieldnames.
Proof.
  rewrite <- combine_fst_take.
  apply (fold_dict_set_keys fst (fun kv : string * string => Some (snd kv))).
Qed.

Lemma rest_fold_keys (keys : list string) (d0 : list (string * cell)) k :
  k ∈ List.map fst (List.fold_left (fun d key => dict_set key None d) keys d0)
  <-> k ∈ List.map fst d0 \/ k ∈ keys.
Proof.
  rewrite <- (List.map_id keys) at 2.
  apply (fold_dict_set_keys (fun key : string => key) (fun _ => @None string)).
Qed.

Lemma dict_reader_row_keys fieldnames row k :
  k ∈ List.map fst (dict_reader_row fieldnames row).1 <-> k ∈ fieldnames.
Proof.
  unfold dict_reader_row.
  destruct (List.length fieldnames <? List.length row)%nat eqn:Hlt; cbn [fst].
  - apply Nat.ltb_lt in Hlt.
    rewrite zip_fold_keys, take_ge by lia. cbn [List.map]; rewrite elem_of_nil; tauto.
  - rewrite rest_fold_keys, zip_fold_keys.
    cbn [List.map]; rewrite elem_of_nil.
    rewrite <- (take_drop (List.length row) fieldnames) at 3.
    rewrite elem_of_app; tauto.
Qed.

(** With distinct headers the dictionary pairs each header with its cell,
    and the headers beyond the record with [None]. *)
Lemma dict_reader_row_distinct fieldnames row :
  NoDup fieldnames ->
  (dict_reader_row fieldnames row).1
  = (List.map (fun kv => (fst kv, Some (snd kv))) (List.combine fieldnames row)
     ++ List.map (fun key => (key, None)) (List.skipn (List.length row) fieldnames))%list.
Proof.
  intros Hnd. unfold dict_reader_row.
  assert (List.fold_left (fun d kv => dict_set (fst kv) (Some (snd kv)) d)
            (List.combine fieldnames row) []
          = List.map (fun kv => (fst kv, Some (snd kv))) (List.combine fieldnames row))
    as ->.
  { apply (fold_dict_set_fresh fst (fun kv : string * string => Some (snd kv))).
    cbn [List.map app]; rewrite combine_fst_take.
    rewrite <- (take_drop (List.length row) fieldnames) in Hnd.
    by apply NoDup_app in Hnd as (? & _ & _). }
  destruct (List.length fieldnames <? List.length row)%nat eqn:Hlt; cbn [fst].
  - apply Nat.ltb_lt in Hlt.
    change (List.skipn (List.length row) fieldnames)
      with (drop (List.length row) fieldnames).
    rewrite drop_ge by lia; cbn [List.map]; rewrite app_nil_r; reflexivity.
  - apply (fold_dict_set_fresh (fun key : string => key) (fun _ => @None string)).
    rewrite List.map_map, List.map_id; cbn [fst].
    rewrite combine_fst_take.
    change (List.skipn (List.length row) fieldnames)
      with (drop (List.length row) fieldnames).
    rewrite take_drop; exact Hnd.
Qed.

Lemma dict_reader_row_cell fieldnames row i k :
  NoDup fieldnames -> fieldnames !! i = Some k ->
  (k, row !! i) ∈ (dict_reader_row fieldnames row).1.
Proof.
  intros Hnd Hk. rewrite (dict_reader_row_distinct _ _ Hnd), elem_of_app.
  destruct (row !! i) as [c|] eqn:Hc.
  - left. apply map_elem; exists (k, c); split; [reflexivity|].
    eapply list_elem_of_lookup_2, combine_lookup; eauto.
  - right. apply map_elem; exists k; split; [reflexivity|].
    apply lookup_ge_None in Hc.
    apply (list_elem_of_lookup_2 _ (i - List.length row)).
    change (List.skipn (List.length row) fieldnames)
      with (drop (List.length row) fieldnames).
    rewrite lookup_drop. replace (List.length row + (i - List.length row)) with i by lia.
    exact Hk.
Qed.

(** *** Cleaned rows *)

Abbreviation clean_fold := (List.fold_left
  (fun (cleaned : gmap string cell) (kv : string * cell) =>
     <[Text.strip (fst kv) := Text.strip <$> snd kv]> cleaned)).

Lemma clean_fold_keys d (m : gmap string cell) k :
  is_Some (clean_fold d m !! k)
  <-> is_Some (m !! k) \/ k ∈ List.map (fun kv => Text.strip (fst kv)) d.
Proof.
  revert m; induction d as [|kv d IH]; intros m; cbn [List.fold_left List.map].
  - rewrite elem_of_nil; tauto.
  - rewrite IH, lookup_insert_is_Some', elem_of_cons.
    split; intros H; destruct_or!; auto.
Qed.

Lemma clean_fold_value d (m : gmap string cell) k v :
  clean_fold d m !! k = Some v ->
  m !! k = Some v \/ exists c, v = Text.strip <$> c.
Proof.
  revert m; induction d as [|kv d IH]; intros m; cbn [List.fold_left]; [auto|].
  intros Hv. apply IH in Hv as [Hv|Hv]; [|auto].
  apply lookup_insert_Some in Hv as [[_ <-]|[_ Hv]]; eauto.
Qed.

Lemma clean_fold_other d (m : gmap string cell) k :
  k ∉ List.map (fun kv => Text.strip (fst kv)) d -> clean_fold d m !! k = m !! k.
Proof.
  revert m; induction d as [|kv d IH]; intros m; cbn [List.fold_left List.map];
    [reflexivity|].
  rewrite not_elem_of_cons; intros [Hne Hd].
  rewrite IH by exact Hd. by apply lookup_insert_ne.
Qed.

Lemma clean_fold_distinct d (m : gmap string cell) k c :
  NoDup (List.map (fun kv => Text.strip (fst kv)) d) -> (k, c) ∈ d ->
  clean_fold d m !! Text.strip k = Some (Text.strip <$> c).
Proof.
  revert m; induction d as [|kv d IH]; intros m; cbn [List.fold_left List.map].
  - intros _ Hin; by apply elem_of_nil in Hin.
  - intros Hnd Hin. apply NoDup_cons in Hnd as [Hfresh Hnd].
    apply elem_of_cons in Hin as [<-|Hin]; [|by apply IH].
    cbn [fst snd] in *. rewrite clean_fold_other by exact Hfresh.
    apply lookup_insert_eq.
Qed.

Lemma clean_row_of reader_fieldnames record :
  row_of reader_fieldnames record
    (clean_row (dict_reader_row reader_fieldnames record)).
Proof.
  unfold row_of, clean_row.
  set (d := (dict_reader_row reader_fieldnames record).1).
  assert (List.map (fun kv : string * cell => Text.strip (fst kv)) d
          = List.map Text.strip (List.map fst d)) as Hkeys
    by (rewrite List.map_map; reflexivity).
  refine (conj _ (conj _ _)).
  - intros k. rewrite clean_fold_keys, lookup_empty, Hkeys, !map_elem.
    split.
    + intros [[? ?]|(k0 & -> & Hk0)]; [discriminate|].
      exists k0; split; [reflexivity|].
      exact (proj1 (dict_reader_row_keys reader_fieldnames record k0) Hk0).
    + intros (k0 & -> & Hk0); right.
      exists k0; split; [reflexivity|].
      exact (proj2 (dict_reader_row_keys reader_fieldnames record k0) Hk0).
  - intros k v Hv. apply clean_fold_value in Hv as [Hv|[c ->]].
    + rewrite lookup_empty in Hv; discriminate.
    + destruct c as [s|]; [right | left; reflexivity].
      exists (Text.strip s); split; [reflexivity | apply strip_trimmed].
  - intros Hnd i k. rewrite map_lookup.
    destruct (reader_fieldnames !! i) as [k0|] eqn:Hk0; [|discriminate].
    intros [= <-]. apply clean_fold_distinct.
    + rewrite Hkeys.
      assert (forall x, x ∈ List.map fst d <-> x ∈ reader_fieldnames) as Hsame
        by (intros x; apply dict_reader_row_keys).
      subst d. rewrite dict_reader_row_distinct by (eapply (NoDup_fmap_1 Text.strip), Hnd).
      rewrite List.map_app, !List.map_map; cbn [fst].
      rewrite List.map_id, combine_fst_take, take_drop. exact Hnd.
    + apply dict_reader_row_cell; [|exact Hk0].
      eapply (NoDup_fmap_1 Text.strip), Hnd.
Qed.

Section Loader.
Context `{Runtime}.

(** Reading through latin-1 never ends in a decode error. *)
Lemma latin_1_decodes path content reason :
  read_table path (open_reader latin_1 content) <> Err (UnicodeDecodeError reason).
Proof.
  intros He. apply read_table_error in He as [He|He]; [discriminate|].
  unfold open_reader in He. destruct (csv_records _) as [rs bad].
  destruct bad; discriminate.
Qed.

(** The loop returns what the first attempt that does not end in a decode
    error returns. *)
Lemma load_with_attempt path content :
  exists enc,
    load_with path content [utf_8_sig; cp1252; latin_1]
    = read_table path (open_reader enc content)
    /\ forall reason,
         read_table path (open_reader enc content) <> Err (UnicodeDecodeError reason).
Proof.
  cbn [load_with].
  destruct (read_table path (open_reader utf_8_sig content)) as [t|e] eqn:H1;
    [exists utf_8_sig; rewrite H1; split; [reflexivity | discriminate]|].
  destruct e; try (exists utf_8_sig; rewrite H1; split; [reflexivity | discriminate]).
  destruct (read_table path (open_reader cp1252 content)) as [t|e] eqn:H2;
    [exists cp1252; rewrite H2; split; [reflexivity | discriminate]|].
  destruct e; try (exists cp1252; rewrite H2; split; [reflexivity | discriminate]).
  destruct (read_table path (open_reader latin_1 content)) as [t|e] eqn:H3;
    [exists latin_1; rewrite H3; split; [reflexivity | discriminate]|].
  destruct e; try (exists latin_1; rewrite H3; split; [reflexivity | discriminate]).
  exfalso; exact (latin_1_decodes _ _ _ H3).
Qed.

Lemma load_csv_ok files path t :
  load_csv files path = Ok t ->
  exists content enc,
    files path = Some content /\ read_table path (open_reader enc content) = Ok t.
Proof.
  unfold load_csv. destruct (files path) as [content|]; [|discriminate].
  destruct (load_with_attempt path content) as (enc & -> & _).
  intros Ht; exists content, enc; auto.
Qed.

(** C7, as the loader has it. The first record the reader yields, blank or
    not, is taken for the header row: a load that succeeds returns its
    entries trimmed of surrounding whitespace, and a file that is empty or
    begins with a blank line makes the load fail for want of a header row.
    The load returns what reading through one of the encodings gives. *)
Theorem loader_header files path :
  match files path with
  | None => load_csv files path = Err OSError
  | Some content =>
      exists enc,
        let rd := open_reader enc content in
        load_csv files path = read_table path rd
        /\ header_spec path rd (read_table path rd)
  end.
Proof.
  unfold load_csv. destruct (files path) as [content|]; [|reflexivity].
  destruct (load_with_attempt path content) as (enc & Hl & _).
  exists enc; split; [exact Hl | apply read_table_header].
Qed.

(** C10. The decode-failure branch of the loader is unreachable: latin-1,
    the last encoding tried, decodes every byte sequence (byte for byte, so
    that encoding the text gives the bytes back), reading through it never
    ends in a decode error, and the loader never raises
    [UnicodeDecodeError]. *)
Theorem decode_failure_unreachable files path content reason :
  list_byte_of_string (decode_latin1 content) = content
  /\ read_table path (open_reader latin_1 content) <> Err (UnicodeDecodeError reason)
  /\ load_csv files path <> Err (UnicodeDecodeError reason).
Proof.
  split; [apply list_byte_of_string_of_list_byte|].
  split; [apply latin_1_decodes|].
  unfold load_csv. destruct (files path) as [c|]; [|discriminate].
  destruct (load_with_attempt path c) as (enc & -> & Hne). apply Hne.
Qed.

(** C8, as the loader has it. In a table the loader returns, the header
    list is the first record with its entries trimmed; the rows stand one
    for one for the non-blank records after it; the keys of a row are the
    trimmed headers; a stored value is a trimmed text or [None]; and, the
    trimmed headers being distinct, a cell missing from a record shorter
    than the header is stored as [None] under its header, every other cell
    as its trimmed text. *)
Theorem loaded_table_invariant files path fieldnames rows :
  load_csv files path = Ok (fieldnames, rows) ->
  exists content enc reader_fieldnames rest,
    files path = Some content
    /\ records (open_reader enc content) = reader_fieldnames :: rest
    /\ fieldnames = List.map Text.strip reader_fieldnames
    /\ Forall trimmed fieldnames
    /\ Forall2 (row_of reader_fieldnames)
         (List.filter (fun row => negb (is_blank_record row)) rest) rows.
Proof.
  intros Hload. apply load_csv_ok in Hload as (content & enc & Hfile & Hread).
  exists content, enc. unfold read_table in Hread.
  destruct (records (open_reader enc content)) as [|hdr rest] eqn:Hrec.
  { destruct (stop_with _); discriminate. }
  destruct (is_blank_record hdr); [discriminate|].
  destruct (stop_with _); [|discriminate].
  injection Hread as <- <-. exists hdr, rest.
  refine (conj Hfile (conj eq_refl (conj eq_refl (conj _ _)))).
  - apply List.Forall_forall; intros x Hx.
    apply in_map_iff in Hx as (y & <- & _). apply strip_trimmed.
  - apply Forall2_map_graph; intros record. apply clean_row_of.
Qed.

(** ** The run *)

(** C9. Atomicity of failure: when loading either input file fails, or
    inferring the name column of either table or the points column fails,
    the run raises and leaves the world as it found it: the output file is
    neither opened nor written, and nothing is printed. *)
Theorem abort_before_output (w : world) :
  preparation_fails (files w) -> exists e, main w = (Err e, w).
Proof.
  unfold preparation_fails, main, mbind, run_bind, lift.
  destruct (load_csv (files w) ALL_VALUES_PATH) as [[all_fields all_rows]|e1];
    [|intros _; eauto].
  destruct (load_csv (files w) AVAILABLE_PATH)
    as [[available_fields available_rows]|e2]; [|intros _; eauto].
  destruct (find_name_column all_fields ALL_VALUES_PATH) as [c1|e3]; [|eauto].
  destruct (find_name_column available_fields AVAILABLE_PATH) as [c2|e4]; [|eauto].
  destruct (find_points_column all_fields all_rows) as [c3|e5]; [|eauto].
  simpl; intros [?|[?|?]]; discriminate.
Qed.

Lemma bind_keeps_output {A B} (m : run A) (k : A -> run B) :
  (forall w, output (m w).2 = output w) ->
  (forall a w, output (k a w).2 = output w) ->
  forall w, output ((m ≫= k) w).2 = output w.
Proof.
  intros Hm Hk w. unfold mbind, run_bind. specialize (Hm w).
  destruct (m w) as [[a|e] w']; cbn [snd] in *; [rewrite Hk|]; exact Hm.
Qed.

Lemma print_keeps_output line w : output (print line w).2 = output w.
Proof. reflexivity. Qed.

Lemma warn_list_keeps_output prefix values w :
  output (warn_list prefix values w).2 = output w.
Proof.
  unfold warn_list. destruct values as [|v values]; [reflexivity|].
  destruct (str_items (v :: values)); reflexivity.
Qed.

(** A non-empty list of names is reported on one line, the names in the
    order of the list. *)
Lemma warn_list_prints prefix v values names w :
  str_items (v :: values) = Some names ->
  warn_list prefix (v :: values) w
  = (Ok tt,
     World (files w) (output w)
       (stdout w ++ [("WARNING: " ++ prefix ++ ": " ++ Text.join ", " names)%string])%list).
Proof. intros Hs; unfold warn_list; rewrite Hs; reflexivity. Qed.

(** When the preparation succeeds the output file is written, with its
    header and one record for each row of the available-items table. *)
Lemma main_writes_output (w : world) all_fields all_rows available_fields
    available_rows :
  load_csv (files w) ALL_VALUES_PATH = Ok (all_fields, all_rows) ->
  load_csv (files w) AVAILABLE_PATH = Ok (available_fields, available_rows) ->
  ~ preparation_fails (files w) ->
  exists written,
    output (main w).2 = Some (["Name"; "Points"] :: written)
    /\ List.length written = List.length available_rows.
Proof.
  unfold preparation_fails, main. unfold mbind at 1 2 3 4 5, run_bind, lift.
  intros -> -> Hprep.
  destruct (find_name_column all_fields ALL_VALUES_PATH) as [c1|e3];
    [|exfalso; apply Hprep; auto].
  destruct (find_name_column available_fields AVAILABLE_PATH) as [c2|e4];
    [|exfalso; apply Hprep; auto].
  destruct (find_points_column all_fields all_rows) as [c3|e5];
    [|exfalso; apply Hprep; auto].
  destruct (build_index c1 c3 all_rows) as [points_by_name duplicate_names].
  pose proof (join_rows_output c2 points_by_name available_rows) as Hout.
  destruct (join_rows c2 points_by_name available_rows)
    as [missing_names output_rows]; cbn [snd] in Hout.
  eexists; split.
  - unfold mbind at 1, run_bind. cbn [write_output].
    rewrite bind_keeps_output; [reflexivity | apply warn_list_keeps_output|].
    intros _; apply bind_keeps_output;
      [apply warn_list_keeps_output | intros _; apply print_keeps_output].
  - rewrite length_map, Hout, length_map; reflexivity.
Qed.

End Loader.

(** * Further properties of the code *)

(** ** Trimming *)

Lemma rstrip_idem s : Text.rstrip (Text.rstrip s) = Text.rstrip s.
Proof.
  induction s as [|c s IH]; [reflexivity|]. cbn [Text.rstrip].
  destruct (Text.rstrip s) as [|b r] eqn:Hr.
  - destruct (Text.is_space c) eqn:Hc; [reflexivity|].
    cbn [Text.rstrip]; rewrite Hc; reflexivity.
  - cbn [Text.rstrip] in *. rewrite IH; reflexivity.
Qed.

Lemma lstrip_fixed s :
  (forall c s', s = String c s' -> Text.is_space c = false) -> Text.lstrip s = s.
Proof.
  destruct s as [|c s]; [reflexivity|]. intros Hhead; simpl.
  rewrite (Hhead c s eq_refl); reflexivity.
Qed.

(** [s.strip().strip() == s.strip()] *)
Lemma strip_idem s : Text.strip (Text.strip s) = Text.strip s.
Proof.
  unfold Text.strip at 1. rewrite lstrip_fixed.
  - unfold Text.strip; apply rstrip_idem.
  - intros c s' He. exact (proj1 (strip_trimmed s c s') He).
Qed.

Section Cells.
Context `{Runtime}.

(** X1. [is_numeric] holds of a cell exactly when the cell is a text that
    is not all whitespace and whose trimmed form [float] parses; it is false
    of [None]; and whitespace around a text does not change the answer. *)
Theorem is_numeric_spec v :
  (is_numeric v = true
   <-> exists s, v = Some s /\ ~ all_space s /\ float_parses (Text.strip s) = true)
  /\ is_numeric None = false
  /\ (forall s, is_numeric (Some (Text.strip s)) = is_numeric (Some s)).
Proof.
  refine (conj _ (conj eq_refl _)).
  - destruct v as [s|]; simpl; [|split; [discriminate | intros (? & ? & _); discriminate]].
    destruct (String.eqb_spec (Text.strip s) "") as [He|Hne]; split.
    + discriminate.
    + intros (s' & [= <-] & Hns & _). by apply strip_empty_iff in He.
    + intros Hf; exists s; repeat split; [|exact Hf].
      intros Hs; by apply strip_empty_iff in Hs.
    + intros (s' & [= <-] & _ & Hf); exact Hf.
  - intros s; simpl; rewrite strip_idem; reflexivity.
Qed.

(** X2. With no data rows, points-column inference succeeds exactly when
    the header list has [Points]: a header-only value source has no numeric
    column. *)
Theorem find_points_column_no_rows fieldnames :
  find_points_column fieldnames []
  = if bool_decide ("Points" ∈ fieldnames) then Ok "Points"
    else Err (ValueError "Could not find a points column in AllValues.csv.").
Proof.
  unfold find_points_column.
  destruct (truthy (List.find (fun name => String.eqb name "Points") fieldnames))
    eqn:Hex.
  - apply find_exact in Hex as [-> Hin].
    rewrite bool_decide_eq_true_2; [reflexivity | by apply list_elem_of_In].
  - apply find_exact_none in Hex; [|discriminate].
    rewrite bool_decide_eq_false_2 by (by rewrite list_elem_of_In).
    assert (List.find (numeric_column []) fieldnames = None) as ->; [|reflexivity].
    induction fieldnames as [|h hs IH]; [reflexivity|].
    cbn [List.find]. unfold numeric_column at 1; cbn.
    apply IH. intros Hin; apply Hex; by right.
Qed.

(** X3. An inferred column is one of the headers: neither inference
    returns a name that the header list lacks. *)
Theorem inferred_column_is_header fieldnames file_label rows :
  match find_name_column fieldnames file_label with
  | Ok column => In column fieldnames
  | Err _ => True
  end
  /\ match find_points_column fieldnames rows with
     | Ok column => In column fieldnames
     | Err _ => True
     end.
Proof.
  split.
  - unfold find_name_column.
    destruct (truthy (List.find (fun name => String.eqb name "Name") fieldnames))
      eqn:Hex.
    + apply find_exact in Hex as [-> Hin]; exact Hin.
    + destruct (List.find (fun name => Text.contains "name" (Text.lower name))
                  fieldnames) as [h|] eqn:Hf; simpl; [|exact I].
      destruct (String.eqb h ""); simpl; [exact I|].
      by apply find_some in Hf as [Hin _].
  - unfold find_points_column.
    destruct (truthy (List.find (fun name => String.eqb name "Points") fieldnames))
      eqn:Hex.
    + apply find_exact in Hex as [-> Hin]; exact Hin.
    + destruct (List.find (numeric_column rows) fieldnames) as [h|] eqn:Hf;
        [|exact I].
      by apply find_some in Hf as [Hin _].
Qed.

(** X4. The encodings are tried in order and the first attempt that does
    not end in a decode error decides: its table or its error (a missing
    header row included) is what the load returns, and a later encoding is
    read only after a decode error. *)
Theorem encoding_fallback_order files path :
  match files path with
  | None => load_csv files path = Err OSError
  | Some content =>
      let attempt enc := read_table path (open_reader enc content) in
      load_csv files path
      = if negb (is_decode_error (attempt utf_8_sig)) then attempt utf_8_sig
        else if negb (is_decode_error (attempt cp1252)) then attempt cp1252
        else attempt latin_1
  end.
Proof.
  unfold load_csv. destruct (files path) as [content|]; [|reflexivity].
  cbn [load_with].
  destruct (read_table path (open_reader utf_8_sig content)) as [t|[]] eqn:H1;
    try reflexivity.
  destruct (read_table path (open_reader cp1252 content)) as [t|[]] eqn:H2;
    try reflexivity.
  destruct (read_table path (open_reader latin_1 content)) as [t|[]] eqn:H3;
    try reflexivity.
  exfalso; exact (latin_1_decodes _ _ _ H3).
Qed.

End Cells.

(** ** Rows of the loader *)

Lemma combine_take {A B} (l : list A) (k : list B) :
  List.combine l (take (List.length l) k) = List.combine l k.
Proof.
  revert k; induction l as [|a l IH]; intros [|b k]; simpl; try reflexivity.
  rewrite IH; reflexivity.
Qed.

(** X6. A record longer than the header loses its surplus cells: the row is
    the row of the record cut to the length of the header. *)
Theorem surplus_cells_dropped reader_fieldnames record :
  clean_row (dict_reader_row reader_fieldnames record)
  = clean_row (dict_reader_row reader_fieldnames
                 (take (List.length reader_fieldnames) record)).
Proof.
  unfold clean_row; f_equal. unfold dict_reader_row. rewrite combine_take.
  destruct (List.length reader_fieldnames <? List.length record)%nat eqn:Hlt.
  - apply Nat.ltb_lt in Hlt. rewrite length_take, Nat.min_l by lia.
    rewrite Nat.ltb_irrefl; cbn [fst].
    change (List.skipn (List.length reader_fieldnames) reader_fieldnames)
      with (drop (List.length reader_fieldnames) reader_fieldnames).
    rewrite drop_all; reflexivity.
  - apply Nat.ltb_ge in Hlt. rewrite take_ge by lia. rewrite (proj2 (Nat.ltb_ge _ _) Hlt).
    reflexivity.
Qed.

Section ValueMap.
Context {K V W : Type} `{EqDecision K}.
Variable g : V -> W.

Local Abbreviation vmap := (List.map (fun kv : K * V => (fst kv, g (snd kv)))).

Lemma dict_set_vmap (k : K) (v : V) d :
  dict_set k (g v) (vmap d) = vmap (dict_set k v d).
Proof.
  induction d as [|[k' v'] d IH]; [reflexivity|]. cbn [dict_set List.map fst snd].
  destruct (decide (k = k')); cbn [List.map fst snd]; [reflexivity|].
  rewrite IH; reflexivity.
Qed.

End ValueMap.

Lemma zip_fold_trim (f : string -> string) fieldnames row (d0 : list (string * cell)) :
  List.fold_left (fun d kv => dict_set (fst kv) (Some (snd kv)) d)
    (List.combine fieldnames (List.map f row))
    (List.map (fun kv => (fst kv, f <$> snd kv)) d0)
  = List.map (fun kv => (fst kv, f <$> snd kv))
      (List.fold_left (fun d kv => dict_set (fst kv) (Some (snd kv)) d)
         (List.combine fieldnames row) d0).
Proof.
  revert row d0; induction fieldnames as [|h hs IH]; intros [|c row] d0;
    try reflexivity.
  cbn [List.map List.combine List.fold_left fst snd].
  rewrite <- IH. f_equal. exact (dict_set_vmap (fmap f) h (Some c) d0).
Qed.

Lemma rest_fold_trim (f : string -> string) keys (d0 : list (string * cell)) :
  List.fold_left (fun d key => dict_set key None d) keys
    (List.map (fun kv => (fst kv, f <$> snd kv)) d0)
  = List.map (fun kv => (fst kv, f <$> snd kv))
      (List.fold_left (fun d key => dict_set key None d) keys d0).
Proof.
  revert d0; induction keys as [|h hs IH]; intros d0; [reflexivity|].
  cbn [List.fold_left]. rewrite <- IH. f_equal.
  exact (dict_set_vmap (fmap f) h None d0).
Qed.

Lemma clean_fold_trimmed d (m : gmap string cell) :
  clean_fold (List.map (fun kv => (fst kv, Text.strip <$> snd kv)) d) m
  = clean_fold d m.
Proof.
  revert m; induction d as [|[k v] d IH]; intros m; [reflexivity|].
  cbn [List.map List.fold_left fst snd]. rewrite IH. do 2 f_equal.
  destruct v; simpl; [rewrite strip_idem|]; reflexivity.
Qed.

Lemma clean_row_trimmed reader_fieldnames record :
  clean_row (dict_reader_row reader_fieldnames (List.map Text.strip record))
  = clean_row (dict_reader_row reader_fieldnames record).
Proof.
  unfold clean_row.
  assert ((dict_reader_row reader_fieldnames (List.map Text.strip record)).1
          = List.map (fun kv => (fst kv, Text.strip <$> snd kv))
              (dict_reader_row reader_fieldnames record).1) as ->.
  { unfold dict_reader_row. rewrite length_map.
    pose proof (zip_fold_trim Text.strip reader_fieldnames record []) as Hzip.
    cbn [List.map] in Hzip. rewrite Hzip.
    destruct (_ <? _)%nat; cbn [fst]; [reflexivity | apply rest_fold_trim]. }
  apply clean_fold_trimmed.
Qed.

(** X7. A row depends on the cells of its record only through their trimmed
    texts: two records whose cells agree once trimmed give the same row. *)
Theorem cells_trim_insensitive reader_fieldnames record record' :
  List.map Text.strip record = List.map Text.strip record' ->
  clean_row (dict_reader_row reader_fieldnames record)
  = clean_row (dict_reader_row reader_fieldnames record').
Proof.
  intros Heq. rewrite <- (clean_row_trimmed _ record), Heq. apply clean_row_trimmed.
Qed.

Section DictValues.
Context {K V X : Type} `{EqDecision K}.
Variables (kf : X -> K) (vf : X -> V).

Lemma dict_set_elem (k0 : K) (v0 : V) d kv :
  kv ∈ dict_set k0 v0 d -> kv = (k0, v0) \/ kv ∈ d.
Proof.
  induction d as [|[k' v'] d IH]; cbn [dict_set].
  - rewrite list_elem_of_singleton; auto.
  - destruct (decide (k0 = k')); rewrite !elem_of_cons; [tauto|].
    intros [?|Hin]; [auto|]. apply IH in Hin; tauto.
Qed.

Lemma fold_dict_set_elem xs (d0 : list (K * V)) kv :
  kv ∈ List.fold_left (fun d x => dict_set (kf x) (vf x) d) xs d0 ->
  kv ∈ d0 \/ exists x, x ∈ xs /\ kv = (kf x, vf x).
Proof.
  revert d0; induction xs as [|x xs IH]; intros d0; cbn [List.fold_left]; [auto|].
  intros Hin. apply IH in Hin as [Hin|(y & Hy & ->)].
  - apply dict_set_elem in Hin as [->|Hin]; [right | auto].
    exists x; split; [left | reflexivity].
  - right; exists y; split; [by right | reflexivity].
Qed.

End DictValues.

Lemma clean_fold_source d (m : gmap string cell) k v :
  clean_fold d m !! k = Some v ->
  m !! k = Some v \/ exists kv, kv ∈ d /\ v = Text.strip <$> snd kv.
Proof.
  revert m; induction d as [|kv d IH]; intros m; cbn [List.fold_left]; [auto|].
  intros Hv. apply IH in Hv as [Hv|(kv' & Hin & ->)].
  - apply lookup_insert_Some in Hv as [[_ <-]|[_ Hv]]; [right | auto].
    exists kv; split; [left | reflexivity].
  - right; exists kv'; split; [by right | reflexivity].
Qed.

(** X8. [None] comes from short records only: when the record has at least
    as many cells as the header has entries, every value of the row is a
    trimmed text. *)
Theorem full_record_has_no_none reader_fieldnames record k v :
  List.length reader_fieldnames <= List.length record ->
  clean_row (dict_reader_row reader_fieldnames record) !! k = Some v ->
  exists s, v = Some s /\ trimmed s.
Proof.
  intros Hlen Hv. unfold clean_row in Hv.
  apply clean_fold_source in Hv as [Hv|(kv & Hin & ->)].
  { rewrite lookup_empty in Hv; discriminate. }
  assert (exists c, snd kv = Some c) as [c ->].
  { unfold dict_reader_row in Hin.
    assert (forall kv',
              kv' ∈ List.fold_left (fun d kv => dict_set (fst kv) (Some (snd kv)) d)
                      (List.combine reader_fieldnames record) [] ->
              exists c, snd kv' = Some c) as Hzip.
    { intros kv' Hkv'.
      apply (fold_dict_set_elem fst (fun x : string * string => Some (snd x)))
        in Hkv' as [Hkv'|(x & _ & ->)]; [by apply elem_of_nil in Hkv' | eauto]. }
    destruct (_ <? _)%nat; cbn [fst] in Hin; [by apply Hzip|].
    change (List.skipn (List.length record) reader_fieldnames)
      with (drop (List.length record) reader_fieldnames) in Hin.
    rewrite drop_ge in Hin by lia. by apply Hzip. }
  exists (Text.strip c); split; [reflexivity | apply strip_trimmed].
Qed.

(** X9. A blank record among the data rows is skipped: the load is the load
    of the records without it. *)
Theorem blank_record_ignored path reader_fieldnames before after how :
  read_table path (Reading (reader_fieldnames :: before ++ [] :: after)%list how)
  = read_table path (Reading (reader_fieldnames :: before ++ after)%list how).
Proof.
  unfold read_table; cbn [records stop_with]. rewrite !List.filter_app.
  reflexivity.
Qed.

(** ** Reporting *)

Lemma str_items_none values : str_items values = None <-> In None values.
Proof.
  induction values as [|[x|] values IH]; simpl.
  - split; [discriminate | tauto].
  - destruct (str_items values); simpl.
    + split; [discriminate|]. intros [?|Hin]; [discriminate|].
      apply IH in Hin; discriminate.
    + split; [intros _; right; by apply IH | reflexivity].
  - split; [auto | reflexivity].
Qed.

Lemma warn_list_ok prefix values names w :
  str_items values = Some names ->
  warn_list prefix values w
  = (Ok tt, World (files w) (output w) (stdout w ++ warning_lines prefix names)%list).
Proof.
  intros Hs. destruct values as [|v values].
  - injection Hs as <-. destruct w; simpl. rewrite app_nil_r; reflexivity.
  - unfold warn_list; rewrite Hs.
    destruct names as [|n names]; [|reflexivity].
    destruct v; simpl in Hs; [|discriminate].
    destruct (str_items values); discriminate.
Qed.

Lemma warn_list_bad prefix values w :
  str_items values = None -> warn_list prefix values w = (Err TypeError, w).
Proof.
  intros Hs. destruct values as [|v values]; [discriminate|].
  unfold warn_list; rewrite Hs; reflexivity.
Qed.

(** X5. [warn_list] raises, with [TypeError], exactly when one of the
    values is [None], and then prints nothing; on the empty list it prints
    nothing; on a non-empty list of texts it prints one line, the texts in
    list order joined by a comma and a space; it never touches the output
    file. *)
Theorem warn_list_behaviour prefix values w :
  ((warn_list prefix values w).1 = Err TypeError <-> In None values)
  /\ (In None values -> (warn_list prefix values w).2 = w)
  /\ (values = [] -> warn_list prefix values w = (Ok tt, w))
  /\ (forall names, str_items values = Some names ->
        warn_list prefix values w
        = (Ok tt, World (files w) (output w)
                    (stdout w ++ warning_lines prefix names)%list))
  /\ output (warn_list prefix values w).2 = output w.
Proof.
  refine (conj _ (conj _ (conj _ (conj (fun names => warn_list_ok _ _ names _) _)))).
  - split.
    + destruct (str_items values) as [names|] eqn:Hs.
      * rewrite (warn_list_ok _ _ _ _ Hs); discriminate.
      * intros _; by apply str_items_none.
    + intros Hin; apply str_items_none in Hin.
      rewrite (warn_list_bad _ _ _ Hin); reflexivity.
  - intros Hin; apply str_items_none in Hin.
    rewrite (warn_list_bad _ _ _ Hin); reflexivity.
  - intros ->; reflexivity.
  - apply warn_list_keeps_output.
Qed.

(** ** The run after the preparation *)

Section Run.
Context `{Runtime}.
Variables (w : world).
Variables (all_fields available_fields : list string).
Variables (all_rows available_rows : list (gmap string cell)).
Variables (all_name_column available_name_column points_column : string).

Hypothesis load_all :
  load_csv (files w) ALL_VALUES_PATH = Ok (all_fields, all_rows).
Hypothesis load_available :
  load_csv (files w) AVAILABLE_PATH = Ok (available_fields, available_rows).
Hypothesis name_all :
  find_name_column all_fields ALL_VALUES_PATH = Ok all_name_column.
Hypothesis name_available :
  find_name_column available_fields AVAILABLE_PATH = Ok available_name_column.
Hypothesis points_all :
  find_points_column all_fields all_rows = Ok points_column.

Local Abbreviation points_by_name :=
  (build_index all_name_column points_column all_rows).1.
Local Abbreviation unique_duplicates :=
  (fromkeys (build_index all_name_column points_column all_rows).2).
Local Abbreviation unique_missing :=
  (fromkeys (join_rows available_name_column points_by_name available_rows).1).
Local Abbreviation output_rows :=
  (join_rows available_name_column points_by_name available_rows).2.
Local Abbreviation written :=
  (["Name"; "Points"]
   :: List.map (fun r => [field (Name r); field (Points r)]) output_rows).
Local Abbreviation duplicates_prefix :=
  "Duplicate names in AllValues.csv (using first occurrence)".
Local Abbreviation missing_prefix :=
  "Names from Available.csv not found in AllValues.csv".

(** After the preparation the run writes the output, then reports. *)
Lemma main_after_preparation :
  main w
  = (write_output output_rows ≫= fun _ =>
     warn_list duplicates_prefix unique_duplicates ≫= fun _ =>
     warn_list missing_prefix unique_missing ≫= fun _ =>
     print ("Wrote " ++ OUTPUT_PATH ++ " with "
            ++ pretty (List.length output_rows) ++ " rows.")) w.
Proof.
  unfold main. unfold mbind at 1 2 3 4 5, run_bind at 1 2 3 4 5, lift.
  rewrite load_all, load_available, name_all, name_available, points_all.
  destruct (build_index all_name_column points_column all_rows)
    as [idx dups]; cbn [fst snd].
  destruct (join_rows available_name_column idx available_rows); reflexivity.
Qed.

(** X10. When the preparation succeeds and every name to report is a text,
    the run returns; the output file holds the header and one record per
    joined row, [None] written as the empty field; and the lines printed
    are, in this order, the duplicate warning (if any name is duplicated),
    the missing warning (if any name is missing) and the completion line
    with the number of rows. *)
Theorem main_success duplicate_texts missing_texts :
  str_items unique_duplicates = Some duplicate_texts ->
  str_items unique_missing = Some missing_texts ->
  main w
  = (Ok tt,
     World (files w) (Some written)
       (((stdout w ++ warning_lines duplicates_prefix duplicate_texts)
         ++ warning_lines missing_prefix missing_texts)
        ++ [("Wrote " ++ OUTPUT_PATH ++ " with "
             ++ pretty (List.length output_rows) ++ " rows.")%string])%list).
Proof.
  intros Hdup Hmiss. rewrite main_after_preparation.
  unfold mbind, run_bind. cbn [write_output].
  rewrite (warn_list_ok _ _ _ _ Hdup), (warn_list_ok _ _ _ _ Hmiss).
  reflexivity.
Qed.

(** X11. When the preparation succeeds and a name to report is [None], the
    run raises [TypeError] after the output file has been written in full;
    the completion line is not printed, and the duplicate warning is
    printed only if the [None] is among the missing names alone. *)
Theorem main_report_failure :
  str_items unique_duplicates = None \/ str_items unique_missing = None ->
  (main w).1 = Err TypeError
  /\ output (main w).2 = Some written
  /\ stdout (main w).2
     = (stdout w ++ match str_items unique_duplicates with
                    | Some duplicate_texts =>
                        warning_lines duplicates_prefix duplicate_texts
                    | None => []
                    end)%list.
Proof.
  intros Hnone. rewrite main_after_preparation.
  unfold mbind, run_bind. cbn [write_output].
  destruct (str_items unique_duplicates) as [duplicate_texts|] eqn:Hdup.
  - destruct Hnone as [?|Hmiss]; [discriminate|].
    rewrite (warn_list_ok _ _ _ _ Hdup), (warn_list_bad _ _ _ Hmiss).
    auto.
  - rewrite (warn_list_bad _ _ _ Hdup). cbn [fst snd output stdout].
    rewrite app_nil_r; auto.
Qed.

End Run.

Section Precedence.
Context `{Runtime}.

(** X12. The run raises the error of the first step that fails, the steps
    being: load AllValues.csv, load Available.csv, infer the name column of
    AllValues.csv, infer the name column of Available.csv, infer the points
    column; a later step is not attempted, and the world is left as it
    was. *)
Theorem first_failure_is_raised (w : world) :
  match load_csv (files w) ALL_VALUES_PATH with
  | Err e => main w = (Err e, w)
  | Ok (all_fields, all_rows) =>
  match load_csv (files w) AVAILABLE_PATH with
  | Err e => main w = (Err e, w)
  | Ok (available_fields, _) =>
  match find_name_column all_fields ALL_VALUES_PATH with
  | Err e => main w = (Err e, w)
  | Ok _ =>
  match find_name_column available_fields AVAILABLE_PATH with
  | Err e => main w = (Err e, w)
  | Ok _ =>
  match find_points_column all_fields all_rows with
  | Err e => main w = (Err e, w)
  | Ok _ => output (main w).2 <> None
  end end end end end.
Proof.
  destruct (load_csv (files w) ALL_VALUES_PATH) as [[all_fields all_rows]|e1] eqn:H1.
  2: { unfold main, mbind, run_bind, lift; rewrite H1; reflexivity. }
  destruct (load_csv (files w) AVAILABLE_PATH)
    as [[available_fields available_rows]|e2] eqn:H2.
  2: { unfold main, mbind, run_bind, lift; rewrite H1, H2; reflexivity. }
  destruct (find_name_column all_fields ALL_VALUES_PATH) as [c1|e3] eqn:H3.
  2: { unfold main, mbind, run_bind, lift; rewrite H1, H2, H3; reflexivity. }
  destruct (find_name_column available_fields AVAILABLE_PATH) as [c2|e4] eqn:H4.
  2: { unfold main, mbind, run_bind, lift; rewrite H1, H2, H3, H4; reflexivity. }
  destruct (find_points_column all_fields all_rows) as [c3|e5] eqn:H5.
  2: { unfold main, mbind, run_bind, lift; rewrite H1, H2, H3, H4, H5; reflexivity. }
  rewrite (main_after_preparation w _ _ _ _ _ _ _ H1 H2 H3 H4 H5).
  unfold mbind at 1, run_bind. cbn [write_output].
  rewrite bind_keeps_output; [discriminate | apply warn_list_keeps_output|].
  intros _; apply bind_keeps_output;
    [apply warn_list_keeps_output | intros _; apply print_keeps_output].
Qed.

End Precedence.

(** ** The index and the missing names *)

Section Index.
Variables all_name_column points_column available_name_column : string.

Lemma index_fold_size (rows : list (gmap string cell)) (idx : gmap cell cell)
    (dups : list cell) :
  let st := List.fold_left (index_step all_name_column points_column) rows (idx, dups) in
  size st.1 + List.length st.2 = size idx + List.length dups + List.length rows.
Proof.
  revert idx dups; induction rows as [|r rows IH]; intros idx dups; cbn zeta.
  - simpl; lia.
  - cbn [List.fold_left].
    destruct (idx !! row_get r all_name_column) as [v|] eqn:Hr.
    + rewrite (index_step_present _ _ _ _ _ _ Hr).
      specialize (IH idx (dups ++ [row_get r all_name_column])%list).
      cbn zeta in IH; rewrite IH, length_app; simpl; lia.
    + rewrite (index_step_absent _ _ _ _ _ Hr).
      specialize (IH (<[row_get r all_name_column := row_get r points_column]> idx) dups).
      cbn zeta in IH; rewrite IH, map_size_insert_None by exact Hr; simpl; lia.
Qed.

(** X13. The index loop accounts for every value-source row: a row either
    adds a key to the index or an entry to the duplicate list, so the
    number of rows is the number of keys plus the number of duplicates; and
    the keys of the index are exactly the names of the rows. *)
Theorem index_accounts_for_rows all_rows :
  let points_by_name := (build_index all_name_column points_column all_rows).1 in
  let duplicate_names := (build_index all_name_column points_column all_rows).2 in
  List.length all_rows = size points_by_name + List.length duplicate_names
  /\ (forall k, is_Some (points_by_name !! k)
                <-> exists row, In row all_rows /\ row_get row all_name_column = k).
Proof.
  cbn zeta; split.
  - pose proof (index_fold_size all_rows ∅ []) as Hsize; cbn zeta in Hsize.
    unfold build_index. rewrite Hsize, map_size_empty; simpl; lia.
  - intros k. rewrite build_index_lookup.
    destruct (List.find _ all_rows) as [r|] eqn:Hf; simpl.
    + apply find_some in Hf as [Hin Hk]. apply bool_decide_eq_true in Hk.
      split; [eauto | intros _; eauto].
    + split; [intros [? ?]; discriminate|].
      intros (row & Hin & Hk). eapply find_none in Hf; [|exact Hin].
      apply bool_decide_eq_false in Hf; contradiction.
Qed.


Lemma index_fold_columns rows rows' st :
  List.map (fun r => (row_get r all_name_column, row_get r points_column)) rows
  = List.map (fun r => (row_get r all_name_column, row_get r points_column)) rows' ->
  List.fold_left (index_step all_name_column points_column) rows st
  = List.fold_left (index_step all_name_column points_column) rows' st.
Proof.
  revert rows' st; induction rows as [|r rows IH]; intros [|r' rows'] st;
    try discriminate; [reflexivity|].
  cbn [List.map List.fold_left]. intros [= Hname Hpoints Hrest].
  rewrite (IH _ _ Hrest). f_equal.
  destruct st as [idx dups]; unfold index_step. rewrite Hname, Hpoints; reflexivity.
Qed.

Lemma join_fold_columns idx rows rows' st :
  List.map (fun r => row_get r available_name_column) rows
  = List.map (fun r => row_get r available_name_column) rows' ->
  List.fold_left (join_step available_name_column idx) rows st
  = List.fold_left (join_step available_name_column idx) rows' st.
Proof.
  revert rows' st; induction rows as [|r rows IH]; intros [|r' rows'] st;
    try discriminate; [reflexivity|].
  cbn [List.map List.fold_left]. intros [= Hname Hrest].
  rewrite (IH _ _ Hrest). f_equal.
  destruct st as [missing out]; unfold join_step. rewrite Hname; reflexivity.
Qed.

(** X15. The join reads the name and points columns only: value sources
    that agree on these two columns give the same index and the same
    duplicates, and available-items tables that agree on the name column
    give the same joined rows and the same missing names. *)
Theorem other_columns_ignored all_rows all_rows' available_rows available_rows' :
  List.map (fun r => (row_get r all_name_column, row_get r points_column)) all_rows
  = List.map (fun r => (row_get r all_name_column, row_get r points_column)) all_rows' ->
  List.map (fun r => row_get r available_name_column) available_rows
  = List.map (fun r => row_get r available_name_column) available_rows' ->
  build_index all_name_column points_column all_rows
  = build_index all_name_column points_column all_rows'
  /\ join_rows available_name_column
       (build_index all_name_column points_column all_rows).1 available_rows
     = join_rows available_name_column
         (build_index all_name_column points_column all_rows').1 available_rows'.
Proof.
  intros Hall Havailable.
  assert (build_index all_name_column points_column all_rows
          = build_index all_name_column points_column all_rows') as Hidx
    by (by apply index_fold_columns).
  split; [exact Hidx|]. rewrite Hidx. by apply join_fold_columns.
Qed.

End Index.

(** ** The program on concrete inputs *)

(** The scenario of the specification: Alpha is duplicated, Gamma is
    missing. *)
Example scenario_alpha_beta :
  let w := @main plain_runtime
             (example_world ["Name,Points"; "Alpha,10"; "Beta,20"; "Alpha,99"]
                ["Name"; "Beta"; "Gamma"]) in
  w.1 = Ok tt
  /\ output w.2 = Some [["Name"; "Points"]; ["Beta"; "20"]; ["Gamma"; ""]]
  /\ stdout w.2
     = ["WARNING: Duplicate names in AllValues.csv (using first occurrence): Alpha";
        "WARNING: Names from Available.csv not found in AllValues.csv: Gamma";
        "Wrote AvailableWithPoints.csv with 2 rows."].
Proof. vm_compute. auto. Qed.

Example inference_precedence :
  let rows : list (gmap string cell) :=
    [{[ "ID" := Some "1"; "Name" := Some "Alpha";
        "Score" := Some "7"; "Points" := Some "10" ]}] in
  find_name_column ["ID"; "Name"; "Score"; "Points"] ALL_VALUES_PATH = Ok "Name"
  /\ @find_points_column plain_runtime ["ID"; "Name"; "Score"; "Points"] rows
     = Ok "Points".
Proof. vm_compute. auto. Qed.

Example inference_fallback :
  let rows : list (gmap string cell) :=
    [{[ "Item Name" := Some "Alpha"; "Value" := Some "10" ]};
     {[ "Item Name" := Some "Beta"; "Value" := Some "" ]}] in
  find_name_column ["Item Name"; "Value"] ALL_VALUES_PATH = Ok "Item Name"
  /\ @find_points_column plain_runtime ["Item Name"; "Value"] rows = Ok "Value".
Proof. vm_compute. auto. Qed.

(** The failure scenario of the specification: headers ID and Label. *)
Example scenario_id_label :
  let w0 := example_world ["ID,Label"; "1,x"] ["Name"; "Beta"] in
  exists e, @main plain_runtime w0 = (Err e, w0) /\ output w0 = None.
Proof. eexists; split; [vm_compute|]; reflexivity. Qed.

(** First occurrence wins: X with 5, then X with 9. *)
Example first_occurrence_x :
  let all_rows : list (gmap string cell) :=
    [{[ "Name" := Some "X"; "Points" := Some "5" ]};
     {[ "Name" := Some "X"; "Points" := Some "9" ]}] in
  (build_index "Name" "Points" all_rows).1 !! Some "X" = Some (Some "5")
  /\ fromkeys (build_index "Name" "Points" all_rows).2 = [Some "X"].
Proof. vm_compute. auto. Qed.

(** Two short rows without a name cell: the name [None] is a duplicate, and
    joining the names for the warning raises [TypeError] once the output
    file is written. *)
Example short_rows_break_report :
  let w := @main plain_runtime
             (example_world ["Points,Name"; "5"; "6"] ["Name"; "Alpha"]) in
  w.1 = Err TypeError
  /\ output w.2 = Some [["Name"; "Points"]; ["Alpha"; ""]]
  /\ stdout w.2 = [].
Proof. vm_compute. auto. Qed.

(** C4. A name whose points cell is empty in the value source is in the
    index, and yet it is recorded as missing and reported as not found in
    AllValues.csv: with AllValues.csv holding [Name,Points] and [Alpha,]
    and Available.csv holding [Name] and [Alpha]. *)
Theorem blank_points_reported_missing :
  let all_rows : list (gmap string cell) :=
    [{[ "Name" := Some "Alpha"; "Points" := Some "" ]}] in
  let available_rows : list (gmap string cell) := [{[ "Name" := Some "Alpha" ]}] in
  let points_by_name := (build_index "Name" "Points" all_rows).1 in
  let w := @main plain_runtime
             (example_world ["Name,Points"; "Alpha,"] ["Name"; "Alpha"]) in
  @load_csv plain_runtime (example_files ["Name,Points"; "Alpha,"] ["Name"; "Alpha"])
    ALL_VALUES_PATH = Ok (["Name"; "Points"], all_rows)
  /\ points_by_name !! Some "Alpha" = Some (Some "")
  /\ (join_rows "Name" points_by_name available_rows).1 = [Some "Alpha"]
  /\ stdout w.2
     = ["WARNING: Names from Available.csv not found in AllValues.csv: Alpha";
        "Wrote AvailableWithPoints.csv with 1 rows."].
Proof. vm_compute. auto. Qed.

(** C3. The duplicate diagnostic is lost when a short row takes part: with
    AllValues.csv holding [Points,Name], [1,A], [2,A], [5] and [6], and
    Available.csv holding [Name] and [A], the first occurrence wins ([A]
    keeps the points [1]) and the deduplicated duplicate list is [A]
    followed by [None], each once and in first-seen order; but joining the
    names for the warning raises [TypeError], so that the run fails after
    the output file is written and the duplicated name [A] is never
    reported. *)
Theorem duplicate_report_lost :
  let all_values := ["Points,Name"; "1,A"; "2,A"; "5"; "6"] in
  let available := ["Name"; "A"] in
  let all_rows : list (gmap string cell) :=
    [{[ "Points" := Some "1"; "Name" := Some "A" ]};
     {[ "Points" := Some "2"; "Name" := Some "A" ]};
     {[ "Points" := Some "5"; "Name" := None ]};
     {[ "Points" := Some "6"; "Name" := None ]}] in
  let w := @main plain_runtime (example_world all_values available) in
  @load_csv plain_runtime (example_files all_values available) ALL_VALUES_PATH
    = Ok (["Points"; "Name"], all_rows)
  /\ (build_index "Name" "Points" all_rows).1 !! Some "A" = Some (Some "1")
  /\ (build_index "Name" "Points" all_rows).2 = [Some "A"; None]
  /\ fromkeys (build_index "Name" "Points" all_rows).2 = [Some "A"; None]
  /\ w.1 = Err TypeError
  /\ output w.2 = Some [["Name"; "Points"]; ["A"; "1"]]
  /\ stdout w.2 = [].
Proof. vm_compute. repeat split; reflexivity. Qed.

(** C7, counterexample. The reader yields a blank record, then [Name],
    then [x]: the first non-blank record is [Name], and the load does not
    take it for the header row, it fails. *)
Lemma blank_first_line_is_no_header :
  let rd := Reading [[]; ["Name"]; ["x"]] Eof in
  ~ (forall header,
       first_such (fun record => record <> []) (records rd) header ->
       exists rows,
         read_table ALL_VALUES_PATH rd = Ok (List.map Text.strip header, rows)).
Proof.
  intros rd Hclaim. destruct (Hclaim ["Name"]) as [rows Hrows].
  - exists [[]], [["x"]]. split; [reflexivity|]. split; [discriminate|].
    constructor; [|constructor]. intros Hne; apply Hne; reflexivity.
  - discriminate.
Qed.

Example blank_first_line_load :
  @load_csv plain_runtime (example_files [""; "Name,Points"; "Alpha,10"] ["Name"])
    ALL_VALUES_PATH
  = Err (ValueError "AllValues.csv has no header row.").
Proof. vm_compute. reflexivity. Qed.

(** C8, counterexample. Under the header [Name,Points] the record [Alpha]
    lacks its second cell: the row stores [None] under [Points], which is
    not a text, let alone the empty one. *)
Lemma short_row_cell_is_none :
  let rd := Reading [["Name"; "Points"]; ["Alpha"]] Eof in
  ~ (forall fieldnames rows,
       read_table ALL_VALUES_PATH rd = Ok (fieldnames, rows) ->
       Forall (fun row : gmap string cell =>
                 forall k, In k fieldnames -> exists s, row !! k = Some (Some s))
         rows).
Proof.
  intros rd Hclaim. specialize (Hclaim _ _ eq_refl).
  apply Forall_cons in Hclaim as [Hrow _].
  destruct (Hrow "Points") as [s Hs]; [right; left; reflexivity|].
  vm_compute in Hs. discriminate.
Qed.

(** C8, witness: AllValues.csv holding [Name,Points] and [Alpha]. *)
Lemma loaded_table_invariant_witness :
  let files := example_files ["Name,Points"; "Alpha"] ["Name"] in
  let rows : list (gmap string cell) :=
    [{[ "Name" := Some "Alpha"; "Points" := None ]}] in
  @load_csv plain_runtime files ALL_VALUES_PATH = Ok (["Name"; "Points"], rows)
  /\ exists content enc reader_fieldnames rest,
       files ALL_VALUES_PATH = Some content
       /\ records (@open_reader plain_runtime enc content) = reader_fieldnames :: rest
       /\ ["Name"; "Points"] = List.map Text.strip reader_fieldnames
       /\ Forall trimmed ["Name"; "Points"]
       /\ Forall2 (row_of reader_fieldnames)
            (List.filter (fun row => negb (is_blank_record row)) rest) rows.
Proof.
  intros files rows.
  assert (@load_csv plain_runtime files ALL_VALUES_PATH
          = Ok (["Name"; "Points"], rows)) as Hload by (vm_compute; reflexivity).
  split; [exact Hload|].
  exact (@loaded_table_invariant plain_runtime files ALL_VALUES_PATH
           ["Name"; "Points"] rows Hload).
Defined.

(** C9, witness: a value source with a name column and no points column. *)
Lemma abort_before_output_witness :
  let w0 := example_world ["Name,Label"; "Alpha,x"] ["Name"; "Alpha"] in
  @preparation_fails plain_runtime (files w0)
  /\ exists e, @main plain_runtime w0 = (Err e, w0).
Proof.
  intros w0.
  assert (@preparation_fails plain_runtime (files w0)) as Hfails
    by (vm_compute; right; right; reflexivity).
  split; [exact Hfails|].
  exact (@abort_before_output plain_runtime w0 Hfails).
Defined.

(** X7, witness: cells with and without surrounding blanks. *)
Lemma cells_trim_insensitive_witness :
  clean_row (dict_reader_row ["Name"; "Points"] [" Alpha "; "10"])
  = clean_row (dict_reader_row ["Name"; "Points"] ["Alpha"; "10  "]).
Proof.
  apply (cells_trim_insensitive ["Name"; "Points"] [" Alpha "; "10"] ["Alpha"; "10  "]).
  reflexivity.
Defined.

(** X8, witness: a record with as many cells as the header has entries. *)
Lemma full_record_has_no_none_witness :
  exists s, Some "10" = Some s /\ trimmed s.
Proof.
  apply (full_record_has_no_none ["Name"; "Points"] ["Alpha"; " 10 "] "Points"
           (Some "10")).
  - simpl; lia.
  - vm_compute; reflexivity.
Defined.

(** X10, witness: the scenario with Alpha duplicated and Gamma missing. *)
Lemma main_success_witness :
  let w0 := example_world ["Name,Points"; "Alpha,10"; "Beta,20"; "Alpha,99"]
              ["Name"; "Beta"; "Gamma"] in
  @main plain_runtime w0
  = (Ok tt,
     World (files w0)
       (Some [["Name"; "Points"]; ["Beta"; "20"]; ["Gamma"; ""]])
       ["WARNING: Duplicate names in AllValues.csv (using first occurrence): Alpha";
        "WARNING: Names from Available.csv not found in AllValues.csv: Gamma";
        "Wrote AvailableWithPoints.csv with 2 rows."]).
Proof.
  intros w0.
  pose (all_rows := [ {[ "Name" := Some "Alpha"; "Points" := Some "10" ]};
                      {[ "Name" := Some "Beta"; "Points" := Some "20" ]};
                      {[ "Name" := Some "Alpha"; "Points" := Some "99" ]} ]
                    : list (gmap string cell)).
  pose (available_rows := [ {[ "Name" := Some "Beta" ]}; {[ "Name" := Some "Gamma" ]} ]
                          : list (gmap string cell)).
  assert (@load_csv plain_runtime (files w0) ALL_VALUES_PATH
          = Ok (["Name"; "Points"], all_rows)) as H1 by (vm_compute; reflexivity).
  assert (@load_csv plain_runtime (files w0) AVAILABLE_PATH
          = Ok (["Name"], available_rows)) as H2 by (vm_compute; reflexivity).
  assert (find_name_column ["Name"; "Points"] ALL_VALUES_PATH = Ok "Name") as H3
    by reflexivity.
  assert (find_name_column ["Name"] AVAILABLE_PATH = Ok "Name") as H4 by reflexivity.
  assert (@find_points_column plain_runtime ["Name"; "Points"] all_rows = Ok "Points")
    as H5 by reflexivity.
  rewrite (@main_success plain_runtime w0 _ _ _ _ _ _ _ H1 H2 H3 H4 H5
             ["Alpha"] ["Gamma"]).
  - vm_compute; reflexivity.
  - vm_compute; reflexivity.
  - vm_compute; reflexivity.
Defined.

(** X11, witness: two short rows of the value source lack the name cell. *)
Lemma main_report_failure_witness :
  let w0 := example_world ["Points,Name"; "5"; "6"] ["Name"; "Alpha"] in
  (@main plain_runtime w0).1 = Err TypeError
  /\ output (@main plain_runtime w0).2 = Some [["Name"; "Points"]; ["Alpha"; ""]]
  /\ stdout (@main plain_runtime w0).2 = [].
Proof.
  intros w0.
  pose (all_rows := [ {[ "Points" := Some "5"; "Name" := None ]};
                      {[ "Points" := Some "6"; "Name" := None ]} ]
                    : list (gmap string cell)).
  pose (available_rows := [ {[ "Name" := Some "Alpha" ]} ]
                          : list (gmap string cell)).
  assert (@load_csv plain_runtime (files w0) ALL_VALUES_PATH
          = Ok (["Points"; "Name"], all_rows)) as H1 by (vm_compute; reflexivity).
  assert (@load_csv plain_runtime (files w0) AVAILABLE_PATH
          = Ok (["Name"], available_rows)) as H2 by (vm_compute; reflexivity).
  assert (find_name_column ["Points"; "Name"] ALL_VALUES_PATH = Ok "Name") as H3
    by reflexivity.
  assert (find_name_column ["Name"] AVAILABLE_PATH = Ok "Name") as H4 by reflexivity.
  assert (@find_points_column plain_runtime ["Points"; "Name"] all_rows = Ok "Points")
    as H5 by reflexivity.
  destruct (@main_report_failure plain_runtime w0 _ _ _ _ _ _ _ H1 H2 H3 H4 H5)
    as (Hraise & Hout & Hprint).
  - left; vm_compute; reflexivity.
  - rewrite Hraise, Hout, Hprint. vm_compute. auto.
Defined.

(** X15, witness: tables that differ in a column the join does not read. *)
Lemma other_columns_ignored_witness :
  let all_rows : list (gmap string cell) :=
    [{[ "Name" := Some "Alpha"; "Points" := Some "10"; "ID" := Some "1" ]}] in
  let all_rows' : list (gmap string cell) :=
    [{[ "Name" := Some "Alpha"; "Points" := Some "10" ]}] in
  let available_rows : list (gmap string cell) :=
    [{[ "Name" := Some "Alpha"; "Note" := Some "x" ]}] in
  let available_rows' : list (gmap string cell) := [{[ "Name" := Some "Alpha" ]}] in
  build_index "Name" "Points" all_rows = build_index "Name" "Points" all_rows'
  /\ join_rows "Name" (build_index "Name" "Points" all_rows).1 available_rows
     = join_rows "Name" (build_index "Name" "Points" all_rows').1 available_rows'.
Proof.
  intros all_rows all_rows' available_rows available_rows'.
  apply (other_columns_ignored "Name" "Points" "Name"); vm_compute; reflexivity.
Defined.
